(** * The XMI model pipeline of [xml_processor.py]

    A shallow embedding of the parser, the model processor and the two
    generators, followed by the properties of the pipeline.

    Conventions of the embedding.
    - A Python [str] is the [string] of its UTF-8 bytes (for an ASCII
      [str], its characters); a value of type [Optional[str]] (what
      [Element.get] returns) is an [option string].
    - [ClassInfo] objects are mutable and shared: the class mapping and the
      [children] lists hold references to the same objects.  The objects
      live in a heap (a [list] indexed by address) and a reference is an
      address; mutation is an in-place update of the heap.
    - A Python [dict] is an insertion-ordered association list with unique
      keys ([dict_get], [dict_set]).
    - Code that can raise returns a [result]. *)

From Stdlib Require Import String Ascii List NArith.
From stdpp Require Import base option list strings.
Import ListNotations.
Open Scope string_scope.
Open Scope list_scope.

(** ** Results of code that can raise *)

Inductive error :=
| AttributeError   (* attribute access on [None] *)
| IndexError       (* list index out of range *)
| RecursionDepth   (* the recursion budget of the model is used up *)
| DanglingRef.     (* model only: an address outside the heap *)

Inductive result (A : Type) :=
| Ok (a : A)
| Raise (e : error).
Arguments Ok {A} a.
Arguments Raise {A} e.

Definition bind {A B} (r : result A) (k : A -> result B) : result B :=
  match r with
  | Ok a => k a
  | Raise e => Raise e
  end.

Notation "'do' x <- r ; k" := (bind r (fun x => k))
  (at level 10, x name, r at level 100, k at level 200).

Fixpoint mapM {A B} (f : A -> result B) (l : list A) : result (list B) :=
  match l with
  | [] => Ok []
  | x :: l' => do y <- f x; do ys <- mapM f l'; Ok (y :: ys)
  end.

Fixpoint foldM {A B} (f : A -> B -> result A) (l : list B) (a : A) : result A :=
  match l with
  | [] => Ok a
  | x :: l' => do a' <- f a x; foldM f l' a'
  end.

(** ** Python strings *)

Definition nl : string := String (ascii_of_nat 10) EmptyString.

(** [str(v)] as an f-string placeholder computes it. *)
Definition py_str (v : option string) : string :=
  match v with
  | Some s => s
  | None => "None"
  end.

(** [s * n] *)
Fixpoint str_mul (s : string) (n : nat) : string :=
  match n with
  | O => ""
  | S n' => s +:+ str_mul s n'
  end.

(** [sep.join(l)] *)
Definition join (sep : string) (l : list string) : string := String.concat sep l.

(** [s.split(sep)] for a non-empty [sep]: scan from the left; at a
    position where [sep] starts, close the current segment and jump over
    the separator.  [skip] counts the separator characters still to jump
    over and [cur] is the segment read so far. *)
Fixpoint split_aux (sep : string) (skip : nat) (cur : string) (s : string)
  : list string :=
  match s with
  | EmptyString => [cur]
  | String c s' =>
      match skip with
      | S k => split_aux sep k cur s'
      | O =>
          if String.prefix sep s
          then cur :: split_aux sep (String.length sep - 1) "" s'
          else split_aux sep 0 (cur +:+ String c "") s'
      end
  end.

Definition split (sep s : string) : list string := split_aux sep 0 "" s.

(** ** Python dictionaries: insertion-ordered, unique keys *)

Section Dict.
Context {K V : Type} `{EqDecision K}.

Fixpoint dict_get (k : K) (d : list (K * V)) : option V :=
  match d with
  | [] => None
  | (k', v) :: d' => if decide (k = k') then Some v else dict_get k d'
  end.

(** [d[k] = v]: an existing key keeps its position. *)
Fixpoint dict_set (k : K) (v : V) (d : list (K * V)) : list (K * V) :=
  match d with
  | [] => [(k, v)]
  | (k', v') :: d' =>
      if decide (k = k') then (k', v) :: d' else (k', v') :: dict_set k v d'
  end.

Definition dict_values (d : list (K * V)) : list V := map snd d.

End Dict.

(** ** Model entities *)

Abbreviation addr := nat.

Module Attribute.
Record t := mk {
  name : option string;
  type : option string
}.
End Attribute.

Module ClassInfo.
Record t := mk {
  name : option string;
  is_root : bool;
  documentation : string;
  attributes : list Attribute.t;
  children : list addr;
  min_multiplicity : option string;
  max_multiplicity : option string
}.

Definition set_min_multiplicity (v : option string) (c : t) : t :=
  mk (name c) (is_root c) (documentation c) (attributes c) (children c)
     v (max_multiplicity c).

Definition set_max_multiplicity (v : option string) (c : t) : t :=
  mk (name c) (is_root c) (documentation c) (attributes c) (children c)
     (min_multiplicity c) v.

(** [c.children.append(a)] *)
Definition children_append (a : addr) (c : t) : t :=
  mk (name c) (is_root c) (documentation c) (attributes c) (children c ++ [a])
     (min_multiplicity c) (max_multiplicity c).
End ClassInfo.

(** One entry of the list [_parse_aggregations] returns. *)
Record Aggregation := mkAggregation {
  source : option string;
  target : option string;
  sourceMultiplicity : option string;
  targetMultiplicity : option string
}.

Abbreviation heap := (list ClassInfo.t).
Abbreviation classmap := (list (option string * addr)).

Definition deref (h : heap) (a : addr) : result ClassInfo.t :=
  match h !! a with
  | Some c => Ok c
  | None => Raise DanglingRef
  end.

(** ** The element tree the XML library hands to the parser *)

#[local] Unset Elimination Schemes.
Inductive Element :=
| Elem (tag : string) (attrib : list (string * string)) (kids : list Element).

#[local] Set Elimination Schemes.

Definition tag (e : Element) : string := let 'Elem t _ _ := e in t.
Definition attrib (e : Element) : list (string * string) :=
  let 'Elem _ a _ := e in a.

(** [e.get(key)] *)
Definition get (key : string) (e : Element) : option string :=
  dict_get key (attrib e).

(** [e.get(key, default)] *)
Definition get_default (key default : string) (e : Element) : string :=
  match get key e with
  | Some v => v
  | None => default
  end.

(** All elements strictly below [e], in document order. *)
Fixpoint descendants (e : Element) : list Element :=
  match e with
  | Elem _ _ ks => flat_map (fun k => k :: descendants k) ks
  end.

(** [e.findall('.//' + t)] *)
Definition findall_descendant (t : string) (e : Element) : list Element :=
  filter (fun x => tag x = t) (descendants e).

(** ** XMIParser *)

Module XMIParser.

Definition parse_attribute (a : Element) : Attribute.t :=
  Attribute.mk (get "name" a) (get "type" a).

(** One iteration of the loop of [_parse_classes]: a new object is
    allocated and stored under its name. *)
Definition parse_class (st : heap * classmap) (class_elem : Element)
  : heap * classmap :=
  let '(h, classes) := st in
  let class_name := get "name" class_elem in
  let obj :=
    ClassInfo.mk class_name
      (bool_decide (get "isRoot" class_elem = Some "true"))
      (get_default "documentation" "" class_elem)
      (map parse_attribute (findall_descendant "Attribute" class_elem))
      [] None None in
  (h ++ [obj], dict_set class_name (length h) classes).

Definition _parse_classes (root : Element) : heap * classmap :=
  fold_left parse_class (findall_descendant "Class" root) ([], []).

Definition _parse_aggregations (root : Element) : list Aggregation :=
  map (fun agg =>
         mkAggregation (get "source" agg) (get "target" agg)
           (get "sourceMultiplicity" agg) (get "targetMultiplicity" agg))
      (findall_descendant "Aggregation" root).

(** [parse] from the root of the parsed document on. *)
Definition parse (root : Element) : heap * classmap * list Aggregation :=
  (_parse_classes root, _parse_aggregations root).

End XMIParser.

(** ** ModelProcessor *)

Module ModelProcessor.

(** The fields of a [ModelProcessor] together with the heap its
    [ClassInfo] references point into. *)
Record t := mk {
  store : heap;
  classes : classmap;
  aggregations : list Aggregation
}.

(** [s.split('..')] on an [Optional[str]]: [None] has no [split]. *)
Definition split_multiplicity (v : option string) : result (list string) :=
  match v with
  | Some s => Ok (split ".." s)
  | None => Raise AttributeError
  end.

(** [l[0]] *)
Definition first_item (l : list string) : result string :=
  match l !! 0 with
  | Some x => Ok x
  | None => Raise IndexError
  end.

(** [l[-1]] *)
Definition last_item (l : list string) : result string :=
  match last l with
  | Some x => Ok x
  | None => Raise IndexError
  end.

(** The body of the loop of [_process_aggregations]. *)
Definition process_aggregation (classes : classmap) (h : heap) (agg : Aggregation)
  : result heap :=
  match dict_get (target agg) classes with
  | Some target_class =>
      match dict_get (source agg) classes with
      | Some source_class =>
          do multiplicity <- split_multiplicity (sourceMultiplicity agg);
          do lo <- first_item multiplicity;
          let h1 :=
            alter (ClassInfo.set_min_multiplicity (Some lo)) source_class h in
          do hi <- (if decide (1 < length multiplicity)
                    then last_item multiplicity
                    else first_item multiplicity);
          let h2 :=
            alter (ClassInfo.set_max_multiplicity (Some hi)) source_class h1 in
          Ok (alter (ClassInfo.children_append source_class) target_class h2)
      | None => Ok h
      end
  | None => Ok h
  end.

Definition _process_aggregations (classes : classmap) (aggs : list Aggregation)
  (h : heap) : result heap :=
  foldM (process_aggregation classes) aggs h.

(** [process] from the root of the parsed document on. *)
Definition process (root : Element) : result t :=
  let '(h, classes, aggs) := XMIParser.parse root in
  do h' <- _process_aggregations classes aggs h;
  Ok (mk h' classes aggs).

End ModelProcessor.

(** ** ConfigGenerator *)

Module ConfigGenerator.

Definition attribute_line (indent_str : string) (attr : Attribute.t) : string :=
  indent_str +:+ "    <" +:+ py_str (Attribute.name attr) +:+ ">"
  +:+ py_str (Attribute.type attr)
  +:+ "</" +:+ py_str (Attribute.name attr) +:+ ">".

(** [depth] bounds the nesting of the recursive calls. *)
Fixpoint _build_xml (depth : nat) (h : heap) (class_info : addr) (indent : nat)
  : result string :=
  match depth with
  | O => Raise RecursionDepth
  | S depth' =>
      do c <- deref h class_info;
      let indent_str := str_mul "    " indent in
      let opening := indent_str +:+ "<" +:+ py_str (ClassInfo.name c) +:+ ">" in
      let attrs := map (attribute_line indent_str) (ClassInfo.attributes c) in
      do kids <- mapM (fun child => _build_xml depth' h child (indent + 1))
                      (ClassInfo.children c);
      let closing := indent_str +:+ "</" +:+ py_str (ClassInfo.name c) +:+ ">" in
      Ok (join nl ([opening] ++ attrs ++ kids ++ [closing]))
  end.

(** [next((c for c in classes.values() if c.is_root), None)] *)
Fixpoint first_root (h : heap) (values : list addr) : result (option addr) :=
  match values with
  | [] => Ok None
  | a :: rest =>
      do c <- deref h a;
      if ClassInfo.is_root c then Ok (Some a) else first_root h rest
  end.

Definition generate (depth : nat) (m : ModelProcessor.t) : result string :=
  do root_class <- first_root (ModelProcessor.store m)
                     (dict_values (ModelProcessor.classes m));
  match root_class with
  | Some a => _build_xml depth (ModelProcessor.store m) a 0
  | None => Ok ""
  end.

End ConfigGenerator.

(** ** MetaGenerator *)

(** The values [generate] hands to [json.dumps]. *)
#[local] Unset Elimination Schemes.
Inductive json :=
| JNull
| JBool (b : bool)
| JStr (s : string)
| JList (l : list json)
| JDict (d : list (string * json)).
#[local] Set Elimination Schemes.

Definition json_of_str (v : option string) : json :=
  match v with
  | Some s => JStr s
  | None => JNull
  end.

(** [json.dumps(v, indent=n)] on these values.  With [ensure_ascii]
    left at its default, every code point outside the printable ASCII
    range is written as an escape. *)

Definition dquote : string := String (ascii_of_nat 34) "".
Definition backslash : string := String (ascii_of_nat 92) "".

Definition hex_digit (n : nat) : string :=
  String.substring n 1 "0123456789abcdef".

Definition escape_char (c : ascii) : string :=
  let n := nat_of_ascii c in
  if decide (n = 92) then backslash +:+ backslash
  else if decide (n = 34) then backslash +:+ dquote
  else if decide (n = 8) then backslash +:+ "b"
  else if decide (n = 12) then backslash +:+ "f"
  else if decide (n = 10) then backslash +:+ "n"
  else if decide (n = 13) then backslash +:+ "r"
  else if decide (n = 9) then backslash +:+ "t"
  else if decide (32 <= n <= 126) then String c ""
  else backslash +:+ "u00" +:+ hex_digit (n / 16) +:+ hex_digit (n mod 16).

Definition hex4 (n : N) : string :=
  hex_digit (N.to_nat ((n / 4096) mod 16)) +:+ hex_digit (N.to_nat ((n / 256) mod 16))
  +:+ hex_digit (N.to_nat ((n / 16) mod 16)) +:+ hex_digit (N.to_nat (n mod 16)).

(** The escape of a code point from 128 on: four hexadecimal digits, or
    a surrogate pair above the basic plane. *)
Definition escape_code_point (cp : N) : string :=
  if decide (cp < 65536)%N then backslash +:+ "u" +:+ hex4 cp
  else
    let v := (cp - 65536)%N in
    backslash +:+ "u" +:+ hex4 (55296 + (v / 1024) mod 1024)
    +:+ backslash +:+ "u" +:+ hex4 (56320 + v mod 1024).

(** The six low bits a continuation byte carries. *)
Definition continuation (c : ascii) : N := (N_of_ascii c mod 64)%N.

(** The escapes of the code points of a [str], read off its UTF-8
    bytes: a byte below 128 is a code point; a lead byte takes one, two
    or three continuation bytes with it.  (A byte that starts no sequence,
    which the encoding of a [str] never has, is escaped on its own.) *)
Fixpoint escape (s : string) : string :=
  match s with
  | EmptyString => ""
  | String c s' =>
      let n := N_of_ascii c in
      match s' with
      | String c1 s1 =>
          if decide (192 <= n < 224)%N then
            escape_code_point ((n - 192) * 64 + continuation c1) +:+ escape s1
          else
            match s1 with
            | String c2 s2 =>
                if decide (224 <= n < 240)%N then
                  escape_code_point
                    ((n - 224) * 4096 + continuation c1 * 64 + continuation c2)
                  +:+ escape s2
                else
                  match s2 with
                  | String c3 s3 =>
                      if decide (240 <= n < 248)%N then
                        escape_code_point
                          ((n - 240) * 262144 + continuation c1 * 4096
                           + continuation c2 * 64 + continuation c3)
                        +:+ escape s3
                      else escape_char c +:+ escape s'
                  | EmptyString => escape_char c +:+ escape s'
                  end
            | EmptyString => escape_char c +:+ escape s'
            end
      | EmptyString => escape_char c +:+ escape s'
      end
  end.

Definition encode_str (s : string) : string := dquote +:+ escape s +:+ dquote.

Fixpoint json_dumps (indent level : nat) (v : json) : string :=
  let newline_indent := nl +:+ str_mul (str_mul " " indent) (S level) in
  let closing := nl +:+ str_mul (str_mul " " indent) level in
  match v with
  | JNull => "null"
  | JBool true => "true"
  | JBool false => "false"
  | JStr s => encode_str s
  | JList [] => "[]"
  | JList l =>
      "[" +:+ newline_indent
      +:+ join ("," +:+ newline_indent) (map (json_dumps indent (S level)) l)
      +:+ closing +:+ "]"
  | JDict [] => "{}"
  | JDict d =>
      "{" +:+ newline_indent
      +:+ join ("," +:+ newline_indent)
            (map (fun kv => encode_str (fst kv) +:+ ": "
                            +:+ json_dumps indent (S level) (snd kv)) d)
      +:+ closing +:+ "}"
  end.

Module MetaGenerator.

Definition attribute_entry (attr : Attribute.t) : json :=
  JDict (dict_set "type" (json_of_str (Attribute.type attr))
          (dict_set "name" (json_of_str (Attribute.name attr)) [])).

Definition child_entry (child : ClassInfo.t) : json :=
  JDict (dict_set "type" (JStr "class")
          (dict_set "name" (json_of_str (ClassInfo.name child)) [])).

(** The two loops that fill [class_meta['parameters']], a list that
    starts empty. *)
Definition parameters (h : heap) (class_info : ClassInfo.t) : result (list json) :=
  let params :=
    fold_left (fun ps attr => ps ++ [attribute_entry attr])
              (ClassInfo.attributes class_info) [] in
  foldM (fun ps child => do c <- deref h child; Ok (ps ++ [child_entry c]))
        (ClassInfo.children class_info) params.

(** The body of the loop of [generate]: the dictionary of one class. *)
Definition class_meta (h : heap) (class_info : ClassInfo.t)
  : result (list (string * json)) :=
  let m0 :=
    dict_set "isRoot" (JBool (ClassInfo.is_root class_info))
      (dict_set "documentation" (JStr (ClassInfo.documentation class_info))
        (dict_set "class" (json_of_str (ClassInfo.name class_info)) [])) in
  let m1 :=
    match ClassInfo.max_multiplicity class_info with
    | Some v => dict_set "max" (JStr v) m0
    | None => m0
    end in
  let m2 :=
    match ClassInfo.min_multiplicity class_info with
    | Some v => dict_set "min" (JStr v) m1
    | None => m1
    end in
  do params <- parameters h class_info;
  Ok (dict_set "parameters" (JList params) m2).

(** The list [meta_data] that [generate] builds and hands to
    [json.dumps]. *)
Definition meta_data (m : ModelProcessor.t) : result (list (list (string * json))) :=
  mapM (fun a => do c <- deref (ModelProcessor.store m) a;
                 class_meta (ModelProcessor.store m) c)
       (dict_values (ModelProcessor.classes m)).

Definition generate (m : ModelProcessor.t) : result string :=
  do metas <- meta_data m;
  Ok (json_dumps 4 0 (JList (map JDict metas))).

End MetaGenerator.

(** ** Vocabulary of the specification *)

(** The separator occurs somewhere in [s]. *)
Definition occurs (sep s : string) : Prop :=
  exists a b, s = a +:+ sep +:+ b.

(** The objects an edge connects when both of its names are keys of the
    class mapping: [(target, source)]. *)
Definition resolve (classes : classmap) (agg : Aggregation) : option (addr * addr) :=
  match dict_get (target agg) classes, dict_get (source agg) classes with
  | Some t, Some s => Some (t, s)
  | _, _ => None
  end.

(** What the loop body does with an edge, case by case: an edge that
    does not resolve is skipped; an edge that resolves without a
    multiplicity raises; an edge that resolves with the multiplicity [m]
    writes the first and the last segment of [m] to its source and appends
    the source to the children of its target. *)
Inductive edge_outcome (classes : classmap) (h : heap) (agg : Aggregation)
  : result heap -> Prop :=
| edge_skipped :
    resolve classes agg = None ->
    edge_outcome classes h agg (Ok h)
| edge_raised t s :
    resolve classes agg = Some (t, s) ->
    sourceMultiplicity agg = None ->
    edge_outcome classes h agg (Raise AttributeError)
| edge_linked t s m lo hi :
    resolve classes agg = Some (t, s) ->
    sourceMultiplicity agg = Some m ->
    head (split ".." m) = Some lo ->
    last (split ".." m) = Some hi ->
    edge_outcome classes h agg
      (Ok (alter (ClassInfo.children_append s) t
            (alter (ClassInfo.set_max_multiplicity (Some hi)) s
              (alter (ClassInfo.set_min_multiplicity (Some lo)) s h)))).

(** An edge that resolves carries a multiplicity string. *)
Definition splittable (classes : classmap) (agg : Aggregation) : Prop :=
  is_Some (resolve classes agg) -> is_Some (sourceMultiplicity agg).

(** No edge of [aggs] resolves with the object at [a] as its source. *)
Definition never_source (classes : classmap) (aggs : list Aggregation) (a : addr)
  : Prop :=
  Forall (fun agg => forall t, resolve classes agg <> Some (t, a)) aggs.

(** The sources, in list order, of the edges of [aggs] that resolve with
    the object at [a] as their target. *)
Definition sources_into (classes : classmap) (a : addr) (aggs : list Aggregation)
  : list addr :=
  omap (fun agg =>
          match resolve classes agg with
          | Some (t, s) => if decide (t = a) then Some s else None
          | None => None
          end) aggs.


(** Every reference of the model points into the heap. *)
Definition closed (classes : classmap) (h : heap) : Prop :=
  Forall (fun a => a < length h) (dict_values classes) /\
  Forall (fun c => Forall (fun a => a < length h) (ClassInfo.children c)) h.

(** The state of the objects right after parsing: no children, no
    multiplicity. *)
Definition fresh (c : ClassInfo.t) : Prop :=
  ClassInfo.children c = [] /\
  ClassInfo.min_multiplicity c = None /\
  ClassInfo.max_multiplicity c = None.

(** Every key of the class mapping is the name of the object stored
    under it, as in the mapping the parser builds. *)
Definition keyed (classes : classmap) (h : heap) : Prop :=
  forall k a, dict_get k classes = Some a ->
              exists c, h !! a = Some c /\ ClassInfo.name c = k.

(** The names of the objects a list of references points to. *)
Definition names_of (h : heap) (refs : list addr) (names : list (option string))
  : Prop :=
  Forall2 (fun a n => exists c, h !! a = Some c /\ ClassInfo.name c = n) refs names.

(** The entry of [parameters] for a child of the given name. *)
Definition class_param (n : option string) : json :=
  JDict [("name", json_of_str n); ("type", JStr "class")].

(** The entry of [parameters] for an attribute. *)
Definition attribute_param (attr : Attribute.t) : json :=
  JDict [("name", json_of_str (Attribute.name attr));
         ("type", json_of_str (Attribute.type attr))].

(** ** The end-to-end scenario

    Class [A] is the root and has no attributes, class [B] has the
    attribute [x] of type [int], and the only edge aggregates [B] into
    [A] with multiplicity ["0..5"].  The documentation strings, the target
    multiplicity and the order of the two classes in the document are
    left open. *)

Definition class_A (doc : string) : ClassInfo.t :=
  ClassInfo.mk (Some "A") true doc [] [] None None.

Definition class_B (doc : string) : ClassInfo.t :=
  ClassInfo.mk (Some "B") false doc [Attribute.mk (Some "x") (Some "int")]
    [] None None.

Definition scenario_heap (b_first : bool) (docA docB : string) : heap :=
  if b_first then [class_B docB; class_A docA] else [class_A docA; class_B docB].

Definition scenario_classes (b_first : bool) : classmap :=
  if b_first then [(Some "B", 0); (Some "A", 1)] else [(Some "A", 0); (Some "B", 1)].

Definition scenario_edge (mult tm : option string) : Aggregation :=
  mkAggregation (Some "B") (Some "A") mult tm.

Definition scenario_config : string :=
  "<A>" +:+ nl +:+
  "    <B>" +:+ nl +:+
  "        <x>int</x>" +:+ nl +:+
  "    </B>" +:+ nl +:+
  "</A>".

Definition scenario_meta_A (docA : string) : list (string * json) :=
  [("class", JStr "A"); ("documentation", JStr docA); ("isRoot", JBool true);
   ("parameters", JList [JDict [("name", JStr "B"); ("type", JStr "class")]])].

Definition scenario_meta_B (docB : string) : list (string * json) :=
  [("class", JStr "B"); ("documentation", JStr docB); ("isRoot", JBool false);
   ("max", JStr "5"); ("min", JStr "0");
   ("parameters", JList [JDict [("name", JStr "x"); ("type", JStr "int")]])].

(** The scenario as a document, with or without the multiplicity
    attribute on its edge. *)
Definition scenario_document (mult : list (string * string)) : Element :=
  Elem "XMI" [] [
    Elem "Class" [("name", "A"); ("isRoot", "true")] [];
    Elem "Class" [("name", "B"); ("documentation", "bee")]
      [Elem "Attribute" [("name", "x"); ("type", "int")] []];
    Elem "Aggregation" ([("source", "B"); ("target", "A")] ++ mult) []
  ].

(** The metadata text of the scenario, line by line. *)
Definition quoted (s : string) : string := dquote +:+ s +:+ dquote.

Definition scenario_text_A (docA comma : string) : list string :=
  [ "    {";
    "        " +:+ quoted "class" +:+ ": " +:+ quoted "A" +:+ ",";
    "        " +:+ quoted "documentation" +:+ ": " +:+ encode_str docA +:+ ",";
    "        " +:+ quoted "isRoot" +:+ ": true,";
    "        " +:+ quoted "parameters" +:+ ": [";
    "            {";
    "                " +:+ quoted "name" +:+ ": " +:+ quoted "B" +:+ ",";
    "                " +:+ quoted "type" +:+ ": " +:+ quoted "class";
    "            }";
    "        ]";
    "    }" +:+ comma ].

Definition scenario_text_B (docB comma : string) : list string :=
  [ "    {";
    "        " +:+ quoted "class" +:+ ": " +:+ quoted "B" +:+ ",";
    "        " +:+ quoted "documentation" +:+ ": " +:+ encode_str docB +:+ ",";
    "        " +:+ quoted "isRoot" +:+ ": false,";
    "        " +:+ quoted "max" +:+ ": " +:+ quoted "5" +:+ ",";
    "        " +:+ quoted "min" +:+ ": " +:+ quoted "0" +:+ ",";
    "        " +:+ quoted "parameters" +:+ ": [";
    "            {";
    "                " +:+ quoted "name" +:+ ": " +:+ quoted "x" +:+ ",";
    "                " +:+ quoted "type" +:+ ": " +:+ quoted "int";
    "            }";
    "        ]";
    "    }" +:+ comma ].

Definition scenario_meta_text (b_first : bool) (docA docB : string) : string :=
  join nl
    (["["]
     ++ (if b_first then scenario_text_B docB "," ++ scenario_text_A docA ""
         else scenario_text_A docA "," ++ scenario_text_B docB "")
     ++ ["]"]).

Definition scenario_json_text : string :=
  join nl [
    "[";
    "    {";
    "        " +:+ quoted "class" +:+ ": " +:+ quoted "A" +:+ ",";
    "        " +:+ quoted "documentation" +:+ ": " +:+ quoted "" +:+ ",";
    "        " +:+ quoted "isRoot" +:+ ": true,";
    "        " +:+ quoted "parameters" +:+ ": [";
    "            {";
    "                " +:+ quoted "name" +:+ ": " +:+ quoted "B" +:+ ",";
    "                " +:+ quoted "type" +:+ ": " +:+ quoted "class";
    "            }";
    "        ]";
    "    },";
    "    {";
    "        " +:+ quoted "class" +:+ ": " +:+ quoted "B" +:+ ",";
    "        " +:+ quoted "documentation" +:+ ": " +:+ quoted "bee" +:+ ",";
    "        " +:+ quoted "isRoot" +:+ ": false,";
    "        " +:+ quoted "max" +:+ ": " +:+ quoted "5" +:+ ",";
    "        " +:+ quoted "min" +:+ ": " +:+ quoted "0" +:+ ",";
    "        " +:+ quoted "parameters" +:+ ": [";
    "            {";
    "                " +:+ quoted "name" +:+ ": " +:+ quoted "x" +:+ ",";
    "                " +:+ quoted "type" +:+ ": " +:+ quoted "int";
    "            }";
    "        ]";
    "    }";
    "]"
  ].

(** The scenario after the loop. *)
Definition scenario_resolved : ModelProcessor.t :=
  ModelProcessor.mk
    [ClassInfo.mk (Some "A") true "" [] [1] None None;
     ClassInfo.mk (Some "B") false "" [Attribute.mk (Some "x") (Some "int")] []
       (Some "0") (Some "5")]
    (scenario_classes false)
    [scenario_edge (Some "0..5") None].

(** ** XMLProcessor *)

Module XMLProcessor.

(** The model of a new [XMLProcessor]: [ModelProcessor.__init__] starts
    with no classes and no aggregations. *)
Definition init : ModelProcessor.t := ModelProcessor.mk [] [] [].

Definition parse_classes (root : Element) : result ModelProcessor.t :=
  ModelProcessor.process root.

Definition generate_config_xml (depth : nat) (m : ModelProcessor.t)
  : result string :=
  ConfigGenerator.generate depth m.

Definition generate_meta_json (m : ModelProcessor.t) : result string :=
  MetaGenerator.generate m.

End XMLProcessor.

(** ** Further vocabulary *)

(** The object [_parse_classes] builds from a [Class] element. *)
Definition parsed_object (class_elem : Element) : ClassInfo.t :=
  ClassInfo.mk (get "name" class_elem)
    (bool_decide (get "isRoot" class_elem = Some "true"))
    (get_default "documentation" "" class_elem)
    (map XMIParser.parse_attribute (findall_descendant "Attribute" class_elem))
    [] None None.

(** The elements of a list in the order of their first occurrences. *)
Fixpoint first_occurrences {A} `{EqDecision A} (l : list A) : list A :=
  match l with
  | [] => []
  | x :: l' => x :: filter (fun y => y <> x) (first_occurrences l')
  end.

(** [steps h n a x]: [n] child links lead from the object at [a] to the
    object at [x]. *)
Inductive steps (h : heap) : nat -> addr -> addr -> Prop :=
| steps_O a : steps h 0 a a
| steps_S n a c b x :
    h !! a = Some c -> In b (ClassInfo.children c) -> steps h n b x ->
    steps h (S n) a x.

(** A chain of [n] child links starts at the object at [a]. *)
Definition nests (h : heap) (n : nat) (a : addr) : Prop :=
  exists x, steps h n a x.

(** Two objects with the same name, attributes and children. *)
Definition same_shape (c1 c2 : ClassInfo.t) : Prop :=
  ClassInfo.name c1 = ClassInfo.name c2 /\
  ClassInfo.attributes c1 = ClassInfo.attributes c2 /\
  ClassInfo.children c1 = ClassInfo.children c2.

(** The first character of a string, as a string; empty on the empty
    string. *)
Definition first_char (s : string) : string :=
  match s with
  | EmptyString => ""
  | String c _ => String c ""
  end.

(** ** Further example documents *)

(** The name [A] is used twice. *)
Definition duplicate_A1 : Element :=
  Elem "Class" [("name", "A"); ("documentation", "first")] [].

Definition duplicate_B : Element :=
  Elem "Class" [("name", "B"); ("isRoot", "true")] [].

Definition duplicate_A2 : Element :=
  Elem "Class" [("name", "A"); ("isRoot", "true"); ("documentation", "second")] [].

Definition duplicate_document : Element :=
  Elem "XMI" [] [duplicate_A1; duplicate_B; duplicate_A2].

(** A class declared inside another class. *)
Definition nested_inner : Element :=
  Elem "Class" [("name", "Inner")]
    [Elem "Attribute" [("name", "b"); ("type", "int")] []].

Definition nested_outer : Element :=
  Elem "Class" [("name", "Outer"); ("isRoot", "true")]
    [Elem "Attribute" [("name", "a"); ("type", "str")] []; nested_inner].

Definition nested_document : Element := Elem "XMI" [] [nested_outer].

(** A class aggregated into itself. *)
Definition self_document : Element :=
  Elem "XMI" [] [
    Elem "Class" [("name", "A"); ("isRoot", "true")] [];
    Elem "Aggregation"
      [("source", "A"); ("target", "A"); ("sourceMultiplicity", "1")] []
  ].

(** * Properties *)

(** ** The result monad *)

Lemma bind_Ok {A B} (r : result A) (k : A -> result B) (b : B) :
  bind r k = Ok b <-> exists a, r = Ok a /\ k a = Ok b.
Proof.
  split.
  - destruct r as [a|e]; simpl; [eauto | discriminate].
  - intros (a & -> & Hk). exact Hk.
Qed.

Lemma foldM_app {A B} (f : A -> B -> result A) (l1 l2 : list B) (a : A) :
  foldM f (l1 ++ l2) a = bind (foldM f l1 a) (foldM f l2).
Proof.
  revert a. induction l1 as [|x l1 IH]; intros a; simpl; [reflexivity|].
  destruct (f a x) as [a'|e]; simpl; [apply IH | reflexivity].
Qed.

(** ** Strings *)

Lemma append_cons (c : ascii) (s t : string) :
  String c s +:+ t = String c (s +:+ t).
Proof. reflexivity. Qed.

Lemma append_nil_r (s : string) : s +:+ "" = s.
Proof.
  induction s as [|c s IH]; [reflexivity|].
  rewrite append_cons, IH. reflexivity.
Qed.

Lemma append_assoc (a b c : string) : (a +:+ b) +:+ c = a +:+ (b +:+ c).
Proof.
  induction a as [|x a IH]; [reflexivity|].
  rewrite !append_cons, IH. reflexivity.
Qed.

Lemma join_cons (sep x y : string) (l : list string) :
  join sep (x :: y :: l) = x +:+ sep +:+ join sep (y :: l).
Proof. reflexivity. Qed.

(** *** [split] *)

Lemma split_aux_eq (sep cur : string) (c : ascii) (s : string) :
  split_aux sep 0 cur (String c s) =
  if String.prefix sep (String c s)
  then cur :: split_aux sep (String.length sep - 1) "" s
  else split_aux sep 0 (cur +:+ String c "") s.
Proof. reflexivity. Qed.

(** [split] never returns the empty list. *)
Lemma split_aux_cons (sep : string) (skip : nat) (cur s : string) :
  exists x l, split_aux sep skip cur s = x :: l.
Proof.
  revert skip cur. induction s as [|c s IH]; intros skip cur; [simpl; eauto|].
  destruct skip as [|k]; [|apply IH].
  rewrite split_aux_eq.
  destruct (String.prefix sep (String c s)); [eauto | apply IH].
Qed.

Lemma split_dots_sep (cur s : string) :
  split_aux ".." 0 cur (String "." (String "." s)) = cur :: split_aux ".." 0 "" s.
Proof. destruct s; reflexivity. Qed.

Lemma prefix_dots (s : string) :
  String.prefix ".." s = true -> exists b, s = String "." (String "." b).
Proof.
  destruct s as [|c1 [|c2 s]]; cbn [String.prefix]; intros H.
  - discriminate H.
  - destruct (ascii_dec "." c1); discriminate H.
  - destruct (ascii_dec "." c1) as [<-|]; [|discriminate H].
    destruct (ascii_dec "." c2) as [<-|]; [|discriminate H].
    exists s. reflexivity.
Qed.

Lemma occurs_tail (sep : string) (c : ascii) (s : string) :
  occurs sep s -> occurs sep (String c s).
Proof. intros (a & b & ->). exists (String c a), b. reflexivity. Qed.

(** Without a separator the whole string is the only segment. *)
Lemma split_aux_no_sep (s cur : string) :
  ~ occurs ".." s -> split_aux ".." 0 cur s = [cur +:+ s].
Proof.
  revert cur. induction s as [|c s IH]; intros cur Hno.
  - simpl. rewrite append_nil_r. reflexivity.
  - rewrite split_aux_eq. destruct (String.prefix ".." (String c s)) eqn:E.
    + exfalso. apply Hno. apply prefix_dots in E as [b ->].
      exists "", b. reflexivity.
    + rewrite IH.
      * rewrite append_assoc. reflexivity.
      * intros H. apply Hno, occurs_tail, H.
Qed.

Lemma split_no_sep (s : string) : ~ occurs ".." s -> split ".." s = [s].
Proof. intros H. unfold split. rewrite split_aux_no_sep by exact H. reflexivity. Qed.

(** Joined with the separator, the segments give the string back.  The
    second half of the statement carries the induction over the two
    characters a separator takes. *)
Lemma join_split_aux (s : string) :
  (forall cur, join ".." (split_aux ".." 0 cur s) = cur +:+ s) /\
  (forall cur c, join ".." (split_aux ".." 0 cur (String c s)) = cur +:+ String c s).
Proof.
  induction s as [|d s [IH1 IH2]].
  - split; intros cur; [simpl; symmetry; apply append_nil_r|].
    intros c. rewrite split_aux_eq.
    destruct (String.prefix ".." (String c "")) eqn:E; [|reflexivity].
    apply prefix_dots in E as [b E]. discriminate E.
  - assert (H1 : forall cur,
      join ".." (split_aux ".." 0 cur (String d s)) = cur +:+ String d s)
      by (intros cur; apply IH2).
    split; [exact H1|].
    intros cur c.
    destruct (String.prefix ".." (String c (String d s))) eqn:E.
    + apply prefix_dots in E as [b E]. injection E as -> -> ->.
      rewrite split_dots_sep.
      destruct (split_aux_cons ".." 0 "" b) as (x & l & Hx).
      specialize (IH1 ""). rewrite Hx in *. rewrite join_cons, IH1.
      reflexivity.
    + rewrite split_aux_eq, E, H1, append_assoc. reflexivity.
Qed.

Lemma join_split (s : string) : join ".." (split ".." s) = s.
Proof. apply (proj1 (join_split_aux s) ""). Qed.

(** ** Dictionaries *)

Section DictFacts.
Context {K V : Type} `{EqDecision K}.
Implicit Types (k : K) (v : V) (d : list (K * V)).

Lemma dict_get_values k v d : dict_get k d = Some v -> In v (dict_values d).
Proof.
  induction d as [|[k' v'] d IH]; simpl; [discriminate|].
  destruct (decide (k = k')); [intros [= ->]; auto | auto].
Qed.

Lemma dict_get_set k k0 v d :
  dict_get k (dict_set k0 v d) = if decide (k = k0) then Some v else dict_get k d.
Proof.
  induction d as [|[k' v'] d IH]; simpl.
  - destruct (decide (k = k0)); reflexivity.
  - destruct (decide (k0 = k')) as [->|Hne]; simpl.
    + destruct (decide (k = k')); reflexivity.
    + rewrite IH. destruct (decide (k = k')) as [->|]; [|reflexivity].
      rewrite decide_False by congruence. reflexivity.
Qed.

Lemma dict_values_set k v x d :
  In x (dict_values (dict_set k v d)) -> x = v \/ In x (dict_values d).
Proof.
  induction d as [|[k' v'] d IH]; simpl.
  - intros [<-|[]]. auto.
  - destruct (decide (k = k')); simpl; intros [<-|H]; auto.
    destruct (IH H); auto.
Qed.

End DictFacts.

(** ** The model processor *)

Section Processor.
Context (classes : classmap).
Implicit Types (h : heap) (agg : Aggregation) (aggs : list Aggregation)
  (a s t : addr) (c : ClassInfo.t).

Lemma resolve_Some agg t s :
  resolve classes agg = Some (t, s) <->
  dict_get (target agg) classes = Some t /\ dict_get (source agg) classes = Some s.
Proof.
  unfold resolve.
  destruct (dict_get (target agg) classes), (dict_get (source agg) classes);
    split; try intros [= <- <-]; try intros [[= <-] [= <-]]; auto;
    try (intros [? ?]; discriminate).
Qed.

Lemma resolve_None agg :
  resolve classes agg = None <->
  dict_get (target agg) classes = None \/ dict_get (source agg) classes = None.
Proof.
  unfold resolve.
  destruct (dict_get (target agg) classes), (dict_get (source agg) classes);
    split; auto; try discriminate; intros [?|?]; discriminate.
Qed.

(** *** One edge *)

(** The loop body follows [edge_outcome]. *)
Lemma process_aggregation_outcome h agg :
  edge_outcome classes h agg (ModelProcessor.process_aggregation classes h agg).
Proof.
  destruct (resolve classes agg) as [[t s]|] eqn:Hr.
  - pose proof Hr as [Ht Hs]%resolve_Some.
    unfold ModelProcessor.process_aggregation. rewrite Ht, Hs.
    destruct (sourceMultiplicity agg) as [m|] eqn:Hm;
      [|eapply edge_raised; eassumption].
    unfold ModelProcessor.split_multiplicity.
    assert (Hseg : exists lo l, split ".." m = lo :: l)
      by apply split_aux_cons.
    destruct Hseg as (lo & l & Hseg).
    assert (Hlast : exists hi, last (split ".." m) = Some hi).
    { apply last_is_Some. rewrite Hseg. discriminate. }
    destruct Hlast as [hi Hhi].
    assert (Hmax : (if decide (1 < length (split ".." m))
                    then ModelProcessor.last_item (split ".." m)
                    else ModelProcessor.first_item (split ".." m)) = Ok hi).
    { unfold ModelProcessor.last_item. rewrite Hhi.
      destruct (decide (1 < length (split ".." m))) as [|Hshort]; [reflexivity|].
      rewrite Hseg in Hshort, Hhi |- *. destruct l; [|simpl in Hshort; lia].
      injection Hhi as <-. reflexivity. }
    cbn [bind]. rewrite Hmax. rewrite Hseg at 1.
    cbn [bind ModelProcessor.first_item lookup list_lookup].
    eapply edge_linked; try eassumption. rewrite Hseg. reflexivity.
  - replace (ModelProcessor.process_aggregation classes h agg) with (Ok h).
    + apply edge_skipped, Hr.
    + apply resolve_None in Hr. unfold ModelProcessor.process_aggregation.
      destruct (dict_get (target agg) classes); [|reflexivity].
      destruct Hr as [Hr|Hr]; [discriminate Hr | rewrite Hr; reflexivity].
Qed.

(** Inversion of a pass of the loop body with a known result. *)
Ltac edge_inv H :=
  match type of H with
  | ModelProcessor.process_aggregation ?cl ?h ?agg = ?r =>
      let Ho := fresh "Ho" in
      pose proof (process_aggregation_outcome h agg) as Ho;
      rewrite H in Ho; inversion Ho; subst; clear Ho
  end.

Lemma process_aggregation_skip h agg :
  resolve classes agg = None ->
  ModelProcessor.process_aggregation classes h agg = Ok h.
Proof.
  intros Hr. destruct (process_aggregation_outcome h agg); congruence.
Qed.

Lemma process_aggregation_raise h agg t s :
  resolve classes agg = Some (t, s) -> sourceMultiplicity agg = None ->
  ModelProcessor.process_aggregation classes h agg = Raise AttributeError.
Proof.
  intros Hr Hm. destruct (process_aggregation_outcome h agg); congruence.
Qed.

(** The loop body raises nothing but [AttributeError]. *)
Lemma process_aggregation_error h agg e :
  ModelProcessor.process_aggregation classes h agg = Raise e -> e = AttributeError.
Proof. intros H. edge_inv H. reflexivity. Qed.

(** The loop body returns exactly on the edges that are [splittable]. *)
Lemma process_aggregation_total h agg :
  splittable classes agg <->
  exists h', ModelProcessor.process_aggregation classes h agg = Ok h'.
Proof.
  unfold splittable.
  destruct (process_aggregation_outcome h agg) as [Hr|t s Hr Hm|t s m lo hi Hr Hm _ _].
  - split; [eauto|]. rewrite Hr. intros _ [? [=]].
  - rewrite Hr, Hm. split.
    + intros H. destruct H as [? [=]]. eauto.
    + intros [? [=]].
  - rewrite Hm. split; eauto.
Qed.

Lemma process_aggregation_length h agg h' :
  ModelProcessor.process_aggregation classes h agg = Ok h' ->
  length h' = length h.
Proof. intros H. edge_inv H; [reflexivity|]. rewrite !length_alter. reflexivity. Qed.

(** The object at [a] after one resolved edge from [s] into [t]. *)
Lemma lookup_link h t s a (lo hi : string) c :
  h !! a = Some c ->
  alter (ClassInfo.children_append s) t
    (alter (ClassInfo.set_max_multiplicity (Some hi)) s
      (alter (ClassInfo.set_min_multiplicity (Some lo)) s h)) !! a =
  Some (ClassInfo.mk (ClassInfo.name c) (ClassInfo.is_root c)
          (ClassInfo.documentation c) (ClassInfo.attributes c)
          (ClassInfo.children c ++ if decide (t = a) then [s] else [])
          (if decide (s = a) then Some lo else ClassInfo.min_multiplicity c)
          (if decide (s = a) then Some hi else ClassInfo.max_multiplicity c)).
Proof.
  intros Hc. rewrite !list_lookup_alter.
  repeat case_decide; subst; try congruence;
    rewrite ?Hc; destruct c; simpl; rewrite ?app_nil_r; reflexivity.
Qed.

Lemma sources_into_one a agg :
  sources_into classes a [agg] =
  match resolve classes agg with
  | Some (t, s) => if decide (t = a) then [s] else []
  | None => []
  end.
Proof.
  unfold sources_into. simpl.
  destruct (resolve classes agg) as [[t s]|]; [|reflexivity].
  destruct (decide (t = a)); reflexivity.
Qed.

Lemma sources_into_app a l1 l2 :
  sources_into classes a (l1 ++ l2) =
  sources_into classes a l1 ++ sources_into classes a l2.
Proof. apply omap_app. Qed.

(** What one pass of the loop body does to the object at [a]. *)
Lemma edge_effect h agg h' a c :
  ModelProcessor.process_aggregation classes h agg = Ok h' ->
  h !! a = Some c ->
  exists c',
    h' !! a = Some c' /\
    ClassInfo.name c' = ClassInfo.name c /\
    ClassInfo.is_root c' = ClassInfo.is_root c /\
    ClassInfo.documentation c' = ClassInfo.documentation c /\
    ClassInfo.attributes c' = ClassInfo.attributes c /\
    ClassInfo.children c' = ClassInfo.children c ++ sources_into classes a [agg] /\
    ((forall t, resolve classes agg <> Some (t, a)) ->
     ClassInfo.min_multiplicity c' = ClassInfo.min_multiplicity c /\
     ClassInfo.max_multiplicity c' = ClassInfo.max_multiplicity c) /\
    (forall t m, resolve classes agg = Some (t, a) ->
     sourceMultiplicity agg = Some m ->
     ClassInfo.min_multiplicity c' = head (split ".." m) /\
     ClassInfo.max_multiplicity c' = last (split ".." m)).
Proof.
  intros Hstep Hc. rewrite sources_into_one. revert Hstep.
  destruct (process_aggregation_outcome h agg)
    as [Hr|t s Hr Hm|t s m lo hi Hr Hm Hlo Hhi]; intros [= <-]; rewrite Hr.
  - exists c. rewrite app_nil_r. repeat split; auto; intros; congruence.
  - eexists. split; [apply lookup_link, Hc|]. cbn.
    split; [reflexivity|]. split; [reflexivity|]. split; [reflexivity|].
    split; [reflexivity|]. split; [reflexivity|]. split.
    + intros Hother.
      assert (Hne : s <> a) by (intros ->; apply (Hother t); reflexivity).
      rewrite !decide_False by exact Hne. auto.
    + intros t' m' [= <- <-] Hm'. rewrite Hm in Hm'. injection Hm' as <-.
      rewrite !decide_True by reflexivity. split; congruence.
Qed.

(** *** The whole loop *)

Lemma process_aggregations_cons agg aggs h :
  ModelProcessor._process_aggregations classes (agg :: aggs) h =
  bind (ModelProcessor.process_aggregation classes h agg)
       (ModelProcessor._process_aggregations classes aggs).
Proof. reflexivity. Qed.

Lemma process_aggregations_app l1 l2 h :
  ModelProcessor._process_aggregations classes (l1 ++ l2) h =
  bind (ModelProcessor._process_aggregations classes l1 h)
       (ModelProcessor._process_aggregations classes l2).
Proof. apply foldM_app. Qed.

(** The loop returns exactly when every edge is [splittable]. *)
Lemma process_aggregations_total aggs h :
  Forall (splittable classes) aggs <->
  exists h', ModelProcessor._process_aggregations classes aggs h = Ok h'.
Proof.
  revert h. induction aggs as [|agg aggs IH]; intros h.
  - split; [intros _; exists h; reflexivity | constructor].
  - rewrite process_aggregations_cons. split.
    + intros Hall. inversion Hall as [|? ? Hagg Haggs]; subst.
      apply (process_aggregation_total h) in Hagg as [h1 ->].
      apply IH, Haggs.
    + intros [h' H]. apply bind_Ok in H as (h1 & Hstep & Hrest).
      constructor.
      * apply (process_aggregation_total h). eauto.
      * apply (IH h1). eauto.
Qed.

(** A loop with an edge in it that resolves but has no multiplicity
    raises. *)
Lemma process_aggregations_raise aggs h agg t s :
  In agg aggs ->
  resolve classes agg = Some (t, s) -> sourceMultiplicity agg = None ->
  ModelProcessor._process_aggregations classes aggs h = Raise AttributeError.
Proof.
  intros Hin Hr Hm. revert h.
  induction aggs as [|x aggs IH]; intros h; [destruct Hin|].
  rewrite process_aggregations_cons.
  destruct (ModelProcessor.process_aggregation classes h x) as [h1|e] eqn:Hstep.
  - cbn [bind]. destruct Hin as [->|Hin]; [|apply IH, Hin].
    rewrite (process_aggregation_raise h agg t s Hr Hm) in Hstep.
    discriminate Hstep.
  - apply process_aggregation_error in Hstep as ->. reflexivity.
Qed.

Lemma process_aggregations_length aggs h h' :
  ModelProcessor._process_aggregations classes aggs h = Ok h' ->
  length h' = length h.
Proof.
  revert h. induction aggs as [|agg aggs IH]; intros h.
  - intros [= <-]. reflexivity.
  - rewrite process_aggregations_cons. intros (h1 & Hstep & Hrest)%bind_Ok.
    rewrite (IH _ Hrest). eapply process_aggregation_length, Hstep.
Qed.

(** What the loop does to the object at [a]. *)
Lemma process_effect aggs h h' a c :
  ModelProcessor._process_aggregations classes aggs h = Ok h' ->
  h !! a = Some c ->
  exists c',
    h' !! a = Some c' /\
    ClassInfo.name c' = ClassInfo.name c /\
    ClassInfo.is_root c' = ClassInfo.is_root c /\
    ClassInfo.documentation c' = ClassInfo.documentation c /\
    ClassInfo.attributes c' = ClassInfo.attributes c /\
    ClassInfo.children c' = ClassInfo.children c ++ sources_into classes a aggs /\
    (never_source classes aggs a ->
     ClassInfo.min_multiplicity c' = ClassInfo.min_multiplicity c /\
     ClassInfo.max_multiplicity c' = ClassInfo.max_multiplicity c).
Proof.
  revert h c. induction aggs as [|agg aggs IH]; intros h c.
  - intros [= <-] Hc. exists c. rewrite app_nil_r. repeat split; auto.
  - rewrite process_aggregations_cons. intros (h1 & Hstep & Hrest)%bind_Ok Hc.
    destruct (edge_effect h agg h1 a c Hstep Hc)
      as (c1 & Hc1 & Hn1 & Hr1 & Hd1 & Ha1 & Hk1 & Hm1 & _).
    destruct (IH h1 c1 Hrest Hc1) as (c' & Hc' & Hn & Hr & Hd & Ha & Hk & Hm).
    exists c'. split; [exact Hc'|].
    rewrite Hn, Hr, Hd, Ha, Hk, Hk1.
    split; [exact Hn1|]. split; [exact Hr1|]. split; [exact Hd1|].
    split; [exact Ha1|]. split.
    + change (agg :: aggs) with ([agg] ++ aggs).
      rewrite sources_into_app, app_assoc. reflexivity.
    + intros Hnever. inversion Hnever as [|? ? Hagg Haggs]; subst.
      destruct (Hm Haggs) as [-> ->]. apply Hm1, Hagg.
Qed.

(** The last resolved edge with a given source decides its bounds. *)
Lemma process_last_source pre agg post h h' t a m c :
  ModelProcessor._process_aggregations classes (pre ++ agg :: post) h = Ok h' ->
  h !! a = Some c ->
  resolve classes agg = Some (t, a) ->
  sourceMultiplicity agg = Some m ->
  never_source classes post a ->
  exists c',
    h' !! a = Some c' /\
    ClassInfo.min_multiplicity c' = head (split ".." m) /\
    ClassInfo.max_multiplicity c' = last (split ".." m).
Proof.
  rewrite process_aggregations_app.
  intros (h1 & Hpre & Hrest)%bind_Ok Hc Hr Hm Hpost.
  rewrite process_aggregations_cons in Hrest.
  apply bind_Ok in Hrest as (h2 & Hstep & Hrest).
  destruct (process_effect pre h h1 a c Hpre Hc) as (c1 & Hc1 & _).
  destruct (edge_effect h1 agg h2 a c1 Hstep Hc1)
    as (c2 & Hc2 & _ & _ & _ & _ & _ & _ & Hset).
  destruct (Hset t m Hr Hm) as [Hlo Hhi].
  destruct (process_effect post h2 h' a c2 Hrest Hc2)
    as (c' & Hc' & _ & _ & _ & _ & _ & Hkeep).
  destruct (Hkeep Hpost) as [E1 E2]. exists c'. rewrite E1, E2. auto.
Qed.

(** Both bounds are set together. *)
Lemma process_paired aggs h h' a c c' :
  ModelProcessor._process_aggregations classes aggs h = Ok h' ->
  h !! a = Some c -> h' !! a = Some c' ->
  (is_Some (ClassInfo.min_multiplicity c) <-> is_Some (ClassInfo.max_multiplicity c)) ->
  (is_Some (ClassInfo.min_multiplicity c') <-> is_Some (ClassInfo.max_multiplicity c')).
Proof.
  revert h c. induction aggs as [|agg aggs IH]; intros h c.
  - intros [= <-] Hc Hc'. congruence.
  - rewrite process_aggregations_cons. intros (h1 & Hstep & Hrest)%bind_Ok Hc Hc' Hp.
    destruct (edge_effect h agg h1 a c Hstep Hc)
      as (c1 & Hc1 & _ & _ & _ & _ & _ & Hkeep & Hset).
    apply (IH h1 c1 Hrest Hc1 Hc').
    destruct (resolve classes agg) as [[t s]|] eqn:Hr.
    + destruct (decide (s = a)) as [->|Hne].
      * destruct (sourceMultiplicity agg) as [m|] eqn:Hm.
        -- destruct (Hset t m eq_refl eq_refl) as [-> ->].
           unfold split. destruct (split_aux_cons ".." 0 "" m) as (x & l & ->).
           split; intros _; [apply last_is_Some; discriminate | simpl; eauto].
        -- rewrite (process_aggregation_raise h agg t a Hr Hm) in Hstep.
           discriminate Hstep.
      * destruct Hkeep as [-> ->]; [congruence | exact Hp].
    + destruct Hkeep as [-> ->]; [discriminate | exact Hp].
Qed.

(** The children the loop appends are objects of the class mapping. *)
Lemma sources_into_keys a aggs s :
  In s (sources_into classes a aggs) -> exists k, dict_get k classes = Some s.
Proof.
  unfold sources_into. rewrite <- list_elem_of_In, list_elem_of_omap.
  intros (agg & _ & H).
  destruct (resolve classes agg) as [[t s']|] eqn:Hr; [|discriminate].
  destruct (decide (t = a)); [|discriminate]. injection H as ->.
  apply resolve_Some in Hr as [_ Hs]. eauto.
Qed.


(** *** Invariants of the loop *)

(** No reference leaves the heap. *)
Lemma process_closed aggs h h' :
  ModelProcessor._process_aggregations classes aggs h = Ok h' ->
  closed classes h -> closed classes h'.
Proof.
  intros Hp [Hv Hh]. pose proof (process_aggregations_length _ _ _ Hp) as Hlen.
  split; [rewrite Hlen; exact Hv|].
  apply Forall_lookup. intros a c' Hc'.
  assert (Ha : a < length h) by (rewrite <- Hlen; eapply lookup_lt_Some, Hc').
  apply lookup_lt_is_Some in Ha as [c Hc].
  destruct (process_effect aggs h h' a c Hp Hc)
    as (c'' & Hc'' & _ & _ & _ & _ & Hk & _).
  assert (c'' = c') as -> by congruence.
  rewrite Hk, Hlen. apply Forall_app. split.
  - eapply Forall_lookup in Hh; [exact Hh | exact Hc].
  - apply Forall_forall. intros s [k Hs]%list_elem_of_In%sources_into_keys.
    rewrite Forall_forall in Hv. apply Hv, list_elem_of_In.
    eapply dict_get_values, Hs.
Qed.

(** The objects keep their names. *)
Lemma process_keyed aggs h h' :
  ModelProcessor._process_aggregations classes aggs h = Ok h' ->
  keyed classes h -> keyed classes h'.
Proof.
  intros Hp Hk k a (c & Hc & Hn)%Hk.
  destruct (process_effect aggs h h' a c Hp Hc) as (c' & Hc' & Hn' & _).
  exists c'. split; [exact Hc' | congruence].
Qed.


Lemma names_of_total h a c :
  closed classes h -> h !! a = Some c ->
  exists names, names_of h (ClassInfo.children c) names.
Proof.
  intros [_ Hh] Hc. eapply Forall_lookup in Hh; [|exact Hc].
  unfold names_of. induction Hh as [|r refs Hr _ [names IH]].
  - exists []. constructor.
  - apply lookup_lt_is_Some in Hr as [cr Hcr].
    exists (ClassInfo.name cr :: names). constructor; eauto.
Qed.

End Processor.

(** ** The parser *)

(** What [_parse_classes] maintains: every address of the mapping is in
    the heap, every object is [fresh], every key names its object. *)
Lemma parse_class_inv (h : heap) (classes : classmap) (e : Element) :
  Forall (fun a => a < length h) (dict_values classes) ->
  Forall fresh h ->
  keyed classes h ->
  Forall (fun a => a < length (fst (XMIParser.parse_class (h, classes) e)))
         (dict_values (snd (XMIParser.parse_class (h, classes) e))) /\
  Forall fresh (fst (XMIParser.parse_class (h, classes) e)) /\
  keyed (snd (XMIParser.parse_class (h, classes) e))
        (fst (XMIParser.parse_class (h, classes) e)).
Proof.
  intros Hv Hf Hk. cbn [XMIParser.parse_class fst snd]. split; [|split].
  - apply Forall_forall. intros a Ha%list_elem_of_In%dict_values_set.
    rewrite length_app. simpl. destruct Ha as [->|Ha]; [lia|].
    rewrite Forall_forall in Hv. apply list_elem_of_In, Hv in Ha. lia.
  - apply Forall_app. split; [exact Hf|].
    constructor; [|constructor]. repeat split.
  - intros k a. rewrite dict_get_set.
    destruct (decide (k = get "name" e)) as [->|Hne].
    + intros [= <-]. eexists. split; [apply list_lookup_middle; reflexivity|].
      reflexivity.
    + intros (c & Hc & Hn)%Hk. exists c. split; [|exact Hn].
      apply lookup_app_l_Some, Hc.
Qed.

Lemma parse_classes_fold (l : list Element) (st : heap * classmap) :
  Forall (fun a => a < length (fst st)) (dict_values (snd st)) ->
  Forall fresh (fst st) ->
  keyed (snd st) (fst st) ->
  Forall (fun a => a < length (fst (fold_left XMIParser.parse_class l st)))
         (dict_values (snd (fold_left XMIParser.parse_class l st))) /\
  Forall fresh (fst (fold_left XMIParser.parse_class l st)) /\
  keyed (snd (fold_left XMIParser.parse_class l st))
        (fst (fold_left XMIParser.parse_class l st)).
Proof.
  revert st. induction l as [|e l IH]; intros [h classes] Hv Hf Hk; [auto|].
  cbn [fold_left].
  destruct (parse_class_inv h classes e Hv Hf Hk) as (Hv' & Hf' & Hk').
  destruct (XMIParser.parse_class (h, classes) e) as [h1 classes1].
  apply IH; assumption.
Qed.

Lemma fresh_closed (classes : classmap) (h : heap) :
  Forall (fun a => a < length h) (dict_values classes) -> Forall fresh h ->
  closed classes h.
Proof.
  intros Hv Hf. split; [exact Hv|].
  eapply Forall_impl; [exact Hf|]. intros c (-> & _). constructor.
Qed.

(** The parser leaves a closed heap of fresh objects stored under their
    names. *)
Lemma parse_classes_state (root : Element) :
  closed (snd (XMIParser._parse_classes root)) (fst (XMIParser._parse_classes root)) /\
  Forall fresh (fst (XMIParser._parse_classes root)) /\
  keyed (snd (XMIParser._parse_classes root)) (fst (XMIParser._parse_classes root)).
Proof.
  unfold XMIParser._parse_classes.
  destruct (parse_classes_fold (findall_descendant "Class" root) ([], []))
    as (Hv & Hf & Hk); [constructor | constructor | intros k a [=] |].
  split; [apply fresh_closed; assumption | auto].
Qed.

(** ** The metadata of one class *)

Lemma attribute_entry_param (attr : Attribute.t) :
  MetaGenerator.attribute_entry attr = attribute_param attr.
Proof. reflexivity. Qed.

Lemma child_entry_param (c : ClassInfo.t) :
  MetaGenerator.child_entry c = class_param (ClassInfo.name c).
Proof. reflexivity. Qed.

Lemma fold_attribute_entries (attrs : list Attribute.t) (acc : list json) :
  fold_left (fun ps attr => ps ++ [MetaGenerator.attribute_entry attr]) attrs acc =
  acc ++ map attribute_param attrs.
Proof.
  revert acc. induction attrs as [|x attrs IH]; intros acc; simpl.
  - rewrite app_nil_r. reflexivity.
  - rewrite IH, <- app_assoc. reflexivity.
Qed.

Lemma fold_child_entries (h : heap) (refs : list addr) (names : list (option string))
  (acc : list json) :
  names_of h refs names ->
  foldM (fun ps child => do c <- deref h child; Ok (ps ++ [MetaGenerator.child_entry c]))
        refs acc =
  Ok (acc ++ map class_param names).
Proof.
  intros Hn. revert acc.
  induction Hn as [|a n refs names (c & Hc & Hname) _ IH]; intros acc; simpl.
  - rewrite app_nil_r. reflexivity.
  - unfold deref. rewrite Hc. simpl. rewrite IH, <- app_assoc.
    rewrite child_entry_param, Hname. reflexivity.
Qed.

Lemma parameters_spec (h : heap) (c : ClassInfo.t) (names : list (option string)) :
  names_of h (ClassInfo.children c) names ->
  MetaGenerator.parameters h c =
  Ok (map attribute_param (ClassInfo.attributes c) ++ map class_param names).
Proof.
  intros Hn. unfold MetaGenerator.parameters.
  rewrite fold_attribute_entries. apply (fold_child_entries h _ names), Hn.
Qed.

(** The keys of the dictionary of a class. *)
Lemma class_meta_keys (h : heap) (c : ClassInfo.t) (names : list (option string)) :
  names_of h (ClassInfo.children c) names ->
  exists meta,
    MetaGenerator.class_meta h c = Ok meta /\
    dict_get "max" meta = JStr <$> ClassInfo.max_multiplicity c /\
    dict_get "min" meta = JStr <$> ClassInfo.min_multiplicity c /\
    dict_get "parameters" meta =
    Some (JList (map attribute_param (ClassInfo.attributes c)
                 ++ map class_param names)).
Proof.
  intros Hn. unfold MetaGenerator.class_meta.
  rewrite (parameters_spec h c names Hn). cbn [bind]. eexists.
  split; [reflexivity|].
  destruct (ClassInfo.max_multiplicity c), (ClassInfo.min_multiplicity c);
    repeat split.
Qed.

(** The metadata of the classes of a closed model, class by class. *)
Lemma meta_data_classes (m : ModelProcessor.t) :
  closed (ModelProcessor.classes m) (ModelProcessor.store m) ->
  exists metas,
    MetaGenerator.meta_data m = Ok metas /\
    Forall2 (fun a meta =>
               exists c,
                 ModelProcessor.store m !! a = Some c /\
                 MetaGenerator.class_meta (ModelProcessor.store m) c = Ok meta)
            (dict_values (ModelProcessor.classes m)) metas.
Proof.
  intros Hcl. pose proof Hcl as [Hv _]. unfold MetaGenerator.meta_data.
  induction Hv as [|a values Ha _ IH]; cbn [mapM].
  - exists []. split; [reflexivity | constructor].
  - apply lookup_lt_is_Some in Ha as [c Hc].
    destruct (names_of_total _ _ a c Hcl Hc) as [names Hn].
    destruct (class_meta_keys _ c names Hn) as (meta & Hmeta & _).
    destruct IH as (metas & -> & IH).
    unfold deref at 1. rewrite Hc. cbn [bind]. rewrite Hmeta. cbn [bind].
    eexists. split; [reflexivity|].
    constructor; [|exact IH]. exists c. auto.
Qed.

(** ** The configuration document *)

Lemma first_root_none (h : heap) (values : list addr) :
  Forall (fun a => exists c, h !! a = Some c /\ ClassInfo.is_root c = false) values ->
  ConfigGenerator.first_root h values = Ok None.
Proof.
  induction 1 as [|a values (c & Hc & Hr) _ IH]; simpl; [reflexivity|].
  unfold deref. rewrite Hc. simpl. rewrite Hr. exact IH.
Qed.

Lemma first_root_some (h : heap) (pre post : list addr) (a : addr) (c : ClassInfo.t) :
  Forall (fun b => exists c, h !! b = Some c /\ ClassInfo.is_root c = false) pre ->
  h !! a = Some c -> ClassInfo.is_root c = true ->
  ConfigGenerator.first_root h (pre ++ a :: post) = Ok (Some a).
Proof.
  intros Hpre Hc Hr.
  induction Hpre as [|b pre (cb & Hcb & Hrb) _ IH]; simpl.
  - unfold deref. rewrite Hc. simpl. rewrite Hr. reflexivity.
  - unfold deref at 1. rewrite Hcb. simpl. rewrite Hrb. exact IH.
Qed.

(** A class without attributes and children, at any indentation. *)
Lemma build_xml_leaf (h : heap) (a : addr) (c : ClassInfo.t) (depth indent : nat) :
  h !! a = Some c ->
  ClassInfo.attributes c = [] ->
  ClassInfo.children c = [] ->
  ConfigGenerator._build_xml (S depth) h a indent =
  Ok (str_mul "    " indent +:+ "<" +:+ py_str (ClassInfo.name c) +:+ ">" +:+ nl +:+
      str_mul "    " indent +:+ "</" +:+ py_str (ClassInfo.name c) +:+ ">").
Proof.
  intros Hc Ha Hk.
  cbn [ConfigGenerator._build_xml]. unfold deref. rewrite Hc. cbn [bind].
  rewrite Ha, Hk. cbn [mapM bind map app]. unfold join. cbn [String.concat].
  rewrite !append_assoc. reflexivity.
Qed.

(** * The specification, claim by claim *)

(** ** Examples *)

Example split_examples :
  split ".." "0..5" = ["0"; "5"] /\
  split ".." "1...5" = ["1"; ".5"] /\
  split ".." "...." = [""; ""; ""] /\
  split ".." "a..b..c." = ["a"; "b"; "c."] /\
  split ".." "" = [""] /\
  split "abc" "xabcabyabcabc" = ["x"; "aby"; ""; ""].
Proof. repeat split. Qed.

Example scenario_parsed :
  XMIParser.parse (scenario_document [("sourceMultiplicity", "0..5")]) =
  (scenario_heap false "" "bee", scenario_classes false,
   [scenario_edge (Some "0..5") None]).
Proof. reflexivity. Qed.

Example scenario_json :
  bind (ModelProcessor.process (scenario_document [("sourceMultiplicity", "0..5")]))
       MetaGenerator.generate =
  Ok (json_dumps 4 0
        (JList [JDict (scenario_meta_A ""); JDict (scenario_meta_B "bee")])).
Proof. reflexivity. Qed.

(** The JSON text of the two metadata objects of the scenario. *)
Lemma scenario_meta_text_dumps (b_first : bool) (docA docB : string) :
  json_dumps 4 0
    (JList (if b_first
            then [JDict (scenario_meta_B docB); JDict (scenario_meta_A docA)]
            else [JDict (scenario_meta_A docA); JDict (scenario_meta_B docB)])) =
  scenario_meta_text b_first docA docB.
Proof.
  destruct b_first;
    cbv -[escape append]; rewrite !append_assoc; cbv -[escape]; reflexivity.
Qed.

(** C1: for every document that parses to the end-to-end scenario
    (classes [A] and [B], one edge from [B] into [A] with multiplicity
    ["0..5"]; either order of the two classes, any documentation strings
    and target multiplicity), [process] returns a model on which the
    configuration generator returns exactly the five-line text
    [<A>/<B>/<x>int</x>/</B>/</A>], indented by four spaces per level, and
    the metadata generator returns the JSON text of an array with one
    object per class: the one of [A] has [isRoot] true, the single
    parameter [{name: B, type: class}] and neither [min] nor [max]; the one
    of [B] has [isRoot] false, [max] ["5"], [min] ["0"] and the single
    parameter [{name: x, type: int}]. *)
Theorem C1_end_to_end (root : Element) (b_first : bool) (docA docB : string)
  (tm : option string) (depth : nat) :
  XMIParser.parse root =
    (scenario_heap b_first docA docB, scenario_classes b_first,
     [scenario_edge (Some "0..5") tm]) ->
  exists m,
    ModelProcessor.process root = Ok m /\
    ConfigGenerator.generate (S (S depth)) m = Ok scenario_config /\
    MetaGenerator.meta_data m =
      Ok (if b_first then [scenario_meta_B docB; scenario_meta_A docA]
          else [scenario_meta_A docA; scenario_meta_B docB]) /\
    MetaGenerator.generate m = Ok (scenario_meta_text b_first docA docB) /\
    dict_get "min" (scenario_meta_A docA) = None /\
    dict_get "max" (scenario_meta_A docA) = None /\
    dict_get "min" (scenario_meta_B docB) = Some (JStr "0") /\
    dict_get "max" (scenario_meta_B docB) = Some (JStr "5").
Proof.
  intros Hparse. unfold ModelProcessor.process. rewrite Hparse.
  rewrite <- scenario_meta_text_dumps.
  destruct b_first; eexists; (split; [reflexivity|]); repeat split.
Qed.

Lemma C1_end_to_end_witness :
  exists m,
    ModelProcessor.process (scenario_document [("sourceMultiplicity", "0..5")]) = Ok m /\
    ConfigGenerator.generate 2 m = Ok scenario_config /\
    MetaGenerator.meta_data m =
      Ok [scenario_meta_A ""; scenario_meta_B "bee"] /\
    MetaGenerator.generate m = Ok (scenario_meta_text false "" "bee") /\
    dict_get "min" (scenario_meta_A "") = None /\
    dict_get "max" (scenario_meta_A "") = None /\
    dict_get "min" (scenario_meta_B "bee") = Some (JStr "0") /\
    dict_get "max" (scenario_meta_B "bee") = Some (JStr "5").
Proof.
  apply (C1_end_to_end (scenario_document [("sourceMultiplicity", "0..5")])
           false "" "bee" None 0).
  reflexivity.
Defined.

(** C2 as stated fails: an edge whose source and target both exist but
    which has no multiplicity is not split; the loop raises on it, and so
    does [process] on a document with such an edge. *)
Lemma C2_counterexample :
  dict_get (target (scenario_edge None None)) (scenario_classes false) = Some 0 /\
  dict_get (source (scenario_edge None None)) (scenario_classes false) = Some 1 /\
  ModelProcessor._process_aggregations (scenario_classes false)
    [scenario_edge None None] (scenario_heap false "" "") = Raise AttributeError /\
  ModelProcessor.process (scenario_document []) = Raise AttributeError.
Proof. repeat split. Qed.

(** C2, amended: take an edge whose source and target names are keys of
    the class mapping and whose multiplicity is a string [m], in a list in
    which no edge before it stops the loop.  The loop reaches the edge and,
    having processed it, has set [min_multiplicity] of the source to the
    first segment of [m] split on [".."] and [max_multiplicity] to the last
    segment; joined with [".."] the segments give [m] back, and both
    bounds are [m] itself when [".."] does not occur in [m]; for ["1..*"]
    the bounds are ["1"] and ["*"], for ["1"] both are ["1"].  The rest of
    the loop starts from that heap, and the bounds are still there at its
    end unless a later edge resolves with the same source. *)
Theorem C2_multiplicity_split (classes : classmap) (h : heap)
  (pre post : list Aggregation) (agg : Aggregation)
  (t s : addr) (m : string) (c : ClassInfo.t) :
  Forall (splittable classes) pre ->
  dict_get (target agg) classes = Some t ->
  dict_get (source agg) classes = Some s ->
  sourceMultiplicity agg = Some m ->
  h !! s = Some c ->
  exists h1 c1 lo hi,
    ModelProcessor._process_aggregations classes (pre ++ [agg]) h = Ok h1 /\
    h1 !! s = Some c1 /\
    head (split ".." m) = Some lo /\
    last (split ".." m) = Some hi /\
    join ".." (split ".." m) = m /\
    ClassInfo.min_multiplicity c1 = Some lo /\
    ClassInfo.max_multiplicity c1 = Some hi /\
    (~ occurs ".." m -> lo = m /\ hi = m) /\
    (m = "1..*" -> lo = "1" /\ hi = "*") /\
    (m = "1" -> lo = "1" /\ hi = "1") /\
    ModelProcessor._process_aggregations classes (pre ++ agg :: post) h =
      ModelProcessor._process_aggregations classes post h1 /\
    (forall h' c', ModelProcessor._process_aggregations classes post h1 = Ok h' ->
       never_source classes post s -> h' !! s = Some c' ->
       ClassInfo.min_multiplicity c' = Some lo /\
       ClassInfo.max_multiplicity c' = Some hi).
Proof.
  intros Hpre Ht Hs Hm Hc.
  assert (Hr : resolve classes agg = Some (t, s)) by (apply resolve_Some; auto).
  apply (process_aggregations_total classes pre h) in Hpre as [h0 Hp0].
  destruct (process_effect classes pre h h0 s c Hp0 Hc) as (c0 & Hc0 & _).
  destruct (proj1 (process_aggregation_total classes h0 agg)) as [h1 Hstep];
    [intros _; eauto|].
  destruct (edge_effect classes h0 agg h1 s c0 Hstep Hc0)
    as (c1 & Hc1 & _ & _ & _ & _ & _ & _ & Hset).
  destruct (Hset t m Hr Hm) as [Hmin Hmax].
  destruct (split_aux_cons ".." 0 "" m) as (lo & l & Hseg).
  fold (split ".." m) in Hseg.
  assert (Hlast : exists hi, last (split ".." m) = Some hi)
    by (apply last_is_Some; rewrite Hseg; discriminate).
  destruct Hlast as [hi Hhi].
  assert (Hlo : head (split ".." m) = Some lo) by (rewrite Hseg; reflexivity).
  assert (Hloop : forall rest,
            ModelProcessor._process_aggregations classes (pre ++ agg :: rest) h =
            ModelProcessor._process_aggregations classes rest h1).
  { intros rest. rewrite process_aggregations_app, Hp0. cbn [bind].
    rewrite process_aggregations_cons, Hstep. reflexivity. }
  exists h1, c1, lo, hi.
  split; [rewrite Hloop; reflexivity|]. split; [exact Hc1|].
  split; [exact Hlo|]. split; [exact Hhi|].
  split; [apply join_split|].
  split; [congruence|]. split; [congruence|].
  split; [|split; [|split; [|split]]].
  - intros Hno. rewrite (split_no_sep m Hno) in Hlo, Hhi.
    injection Hlo as <-. injection Hhi as <-. auto.
  - intros ->. injection Hlo as <-. injection Hhi as <-. auto.
  - intros ->. injection Hlo as <-. injection Hhi as <-. auto.
  - apply Hloop.
  - intros h' c' Hpost Hnever Hc'.
    destruct (process_effect classes post h1 h' s c1 Hpost Hc1)
      as (c'' & Hc'' & _ & _ & _ & _ & _ & Hkeep).
    assert (c'' = c') as -> by congruence.
    destruct (Hkeep Hnever) as [-> ->]. split; congruence.
Qed.

Lemma C2_multiplicity_split_witness :
  exists h1 c1 lo hi,
    ModelProcessor._process_aggregations (scenario_classes false)
      ([scenario_edge (Some "0..5") None] ++ [scenario_edge (Some "1..*") None])
      (scenario_heap false "" "") = Ok h1 /\
    h1 !! 1 = Some c1 /\
    head (split ".." "1..*") = Some lo /\
    last (split ".." "1..*") = Some hi /\
    join ".." (split ".." "1..*") = "1..*" /\
    ClassInfo.min_multiplicity c1 = Some lo /\
    ClassInfo.max_multiplicity c1 = Some hi /\
    (~ occurs ".." "1..*" -> lo = "1..*" /\ hi = "1..*") /\
    ("1..*" = "1..*" -> lo = "1" /\ hi = "*") /\
    ("1..*" = "1" -> lo = "1" /\ hi = "1") /\
    ModelProcessor._process_aggregations (scenario_classes false)
      ([scenario_edge (Some "0..5") None] ++
       scenario_edge (Some "1..*") None ::
       [mkAggregation (Some "A") (Some "B") (Some "7") None])
      (scenario_heap false "" "") =
      ModelProcessor._process_aggregations (scenario_classes false)
        [mkAggregation (Some "A") (Some "B") (Some "7") None] h1 /\
    (forall h' c',
       ModelProcessor._process_aggregations (scenario_classes false)
         [mkAggregation (Some "A") (Some "B") (Some "7") None] h1 = Ok h' ->
       never_source (scenario_classes false)
         [mkAggregation (Some "A") (Some "B") (Some "7") None] 1 ->
       h' !! 1 = Some c' ->
       ClassInfo.min_multiplicity c' = Some lo /\
       ClassInfo.max_multiplicity c' = Some hi).
Proof.
  apply (C2_multiplicity_split (scenario_classes false) (scenario_heap false "" "")
           [scenario_edge (Some "0..5") None]
           [mkAggregation (Some "A") (Some "B") (Some "7") None]
           (scenario_edge (Some "1..*") None) 0 1 "1..*" (class_B "")).
  - repeat constructor. intros _. simpl. eauto.
  - reflexivity.
  - reflexivity.
  - reflexivity.
  - reflexivity.
Defined.

(** C3: when an object is the source of several edges, the bounds it has
    after the loop are those of the last edge resolved with it as source:
    if the edges are [pre ++ agg :: post], [agg] resolves with the object
    at [s] as its source and carries the multiplicity [m], and no edge of
    [post] resolves with that source, then the loop returns and the object
    has the first and the last segment of [m] as its bounds, whatever the
    edges of [pre] wrote. *)
Theorem C3_last_edge_wins (classes : classmap) (pre post : list Aggregation)
  (agg : Aggregation) (h : heap) (t s : addr) (m : string) (c : ClassInfo.t) :
  Forall (splittable classes) (pre ++ agg :: post) ->
  h !! s = Some c ->
  resolve classes agg = Some (t, s) ->
  sourceMultiplicity agg = Some m ->
  never_source classes post s ->
  exists h' c',
    ModelProcessor._process_aggregations classes (pre ++ agg :: post) h = Ok h' /\
    h' !! s = Some c' /\
    ClassInfo.min_multiplicity c' = head (split ".." m) /\
    ClassInfo.max_multiplicity c' = last (split ".." m).
Proof.
  intros Hall Hc Hr Hm Hpost.
  apply (process_aggregations_total classes _ h) in Hall as [h' Hp].
  destruct (process_last_source classes pre agg post h h' t s m c Hp Hc Hr Hm Hpost)
    as (c' & Hc' & Hlo & Hhi).
  exists h', c'. auto.
Qed.

Lemma C3_last_edge_wins_witness :
  exists h' c',
    ModelProcessor._process_aggregations (scenario_classes false)
      ([scenario_edge (Some "1..*") None] ++
       scenario_edge (Some "0..5") None ::
       [mkAggregation (Some "B") (Some "Z") (Some "7") None])
      (scenario_heap false "" "") = Ok h' /\
    h' !! 1 = Some c' /\
    ClassInfo.min_multiplicity c' = head (split ".." "0..5") /\
    ClassInfo.max_multiplicity c' = last (split ".." "0..5").
Proof.
  apply (C3_last_edge_wins (scenario_classes false)
           [scenario_edge (Some "1..*") None]
           [mkAggregation (Some "B") (Some "Z") (Some "7") None]
           (scenario_edge (Some "0..5") None)
           (scenario_heap false "" "") 0 1 "0..5" (class_B "")).
  - repeat constructor; intros _; simpl; eauto.
  - reflexivity.
  - reflexivity.
  - reflexivity.
  - repeat constructor. intros t. discriminate.
Defined.

(** C4: an edge whose target or source name is not a key of the class
    mapping is skipped: the loop body returns the heap it was given (no
    multiplicity written, no child appended, no error, with or without a
    multiplicity string on the edge), and the loop over a list with such
    an edge in it does what it does on the list without the edge. *)
Theorem C4_unresolved_edge_skipped (classes : classmap) (agg : Aggregation) :
  dict_get (target agg) classes = None \/ dict_get (source agg) classes = None ->
  (forall h, ModelProcessor.process_aggregation classes h agg = Ok h) /\
  (forall pre post h,
     ModelProcessor._process_aggregations classes (pre ++ agg :: post) h =
     ModelProcessor._process_aggregations classes (pre ++ post) h).
Proof.
  intros Hmiss%resolve_None. split.
  - intros h. apply process_aggregation_skip, Hmiss.
  - intros pre post h. rewrite !process_aggregations_app.
    destruct (ModelProcessor._process_aggregations classes pre h) as [h1|e];
      [|reflexivity].
    cbn [bind]. rewrite process_aggregations_cons.
    rewrite process_aggregation_skip by exact Hmiss. reflexivity.
Qed.

Lemma C4_unresolved_edge_skipped_witness :
  (forall h, ModelProcessor.process_aggregation (scenario_classes false) h
               (mkAggregation (Some "B") (Some "Z") None None) = Ok h) /\
  (forall pre post h,
     ModelProcessor._process_aggregations (scenario_classes false)
       (pre ++ mkAggregation (Some "B") (Some "Z") None None :: post) h =
     ModelProcessor._process_aggregations (scenario_classes false) (pre ++ post) h).
Proof.
  apply (C4_unresolved_edge_skipped (scenario_classes false)
           (mkAggregation (Some "B") (Some "Z") None None)).
  left. reflexivity.
Defined.

(** C5: the metadata of a model comes out with one object per class; in
    the object of each class the key [parameters] is present and holds the
    entries [{name, type}] of the attributes of the class, in attribute
    order, followed by the entries [{name, type: "class"}] of its
    children, in children order. *)
Theorem C5_parameters_order (m : ModelProcessor.t) :
  closed (ModelProcessor.classes m) (ModelProcessor.store m) ->
  exists metas,
    MetaGenerator.meta_data m = Ok metas /\
    Forall2 (fun a meta =>
               exists c names,
                 ModelProcessor.store m !! a = Some c /\
                 names_of (ModelProcessor.store m) (ClassInfo.children c) names /\
                 dict_get "parameters" meta =
                 Some (JList (map attribute_param (ClassInfo.attributes c)
                              ++ map class_param names)))
            (dict_values (ModelProcessor.classes m)) metas.
Proof.
  intros Hcl. destruct (meta_data_classes m Hcl) as (metas & Hm & Hall).
  exists metas. split; [exact Hm|].
  eapply Forall2_impl; [exact Hall|].
  intros a meta (c & Hc & Hmeta).
  destruct (names_of_total _ _ a c Hcl Hc) as [names Hn].
  destruct (class_meta_keys _ c names Hn) as (meta' & Hmeta' & _ & _ & Hps).
  assert (meta' = meta) as -> by congruence.
  exists c, names. auto.
Qed.


Lemma C5_parameters_order_witness :
  exists metas,
    MetaGenerator.meta_data scenario_resolved = Ok metas /\
    Forall2 (fun a meta =>
               exists c names,
                 ModelProcessor.store scenario_resolved !! a = Some c /\
                 names_of (ModelProcessor.store scenario_resolved)
                          (ClassInfo.children c) names /\
                 dict_get "parameters" meta =
                 Some (JList (map attribute_param (ClassInfo.attributes c)
                              ++ map class_param names)))
            (dict_values (ModelProcessor.classes scenario_resolved)) metas.
Proof.
  apply (C5_parameters_order scenario_resolved).
  split; repeat constructor.
Defined.

(** C6: starting from the objects as the parser leaves them, after the
    loop the metadata object of every class has the key [max] exactly when
    [max_multiplicity] is set and the key [min] exactly when
    [min_multiplicity] is set, each with that value; the two keys are
    present together or absent together; and a class that no resolved
    edge has as its source has neither key. *)
Theorem C6_min_max_keys (classes : classmap) (aggs : list Aggregation) (h : heap) :
  closed classes h ->
  Forall fresh h ->
  Forall (splittable classes) aggs ->
  exists h' metas,
    ModelProcessor._process_aggregations classes aggs h = Ok h' /\
    MetaGenerator.meta_data (ModelProcessor.mk h' classes aggs) = Ok metas /\
    Forall2 (fun a meta =>
               exists c,
                 h' !! a = Some c /\
                 dict_get "max" meta = JStr <$> ClassInfo.max_multiplicity c /\
                 dict_get "min" meta = JStr <$> ClassInfo.min_multiplicity c /\
                 (dict_get "min" meta = None <-> dict_get "max" meta = None) /\
                 (never_source classes aggs a ->
                  dict_get "min" meta = None /\ dict_get "max" meta = None))
            (dict_values classes) metas.
Proof.
  intros Hcl Hfresh Hall.
  apply (process_aggregations_total classes aggs h) in Hall as [h' Hp].
  pose proof (process_closed classes aggs h h' Hp Hcl) as Hcl'.
  destruct (meta_data_classes (ModelProcessor.mk h' classes aggs) Hcl')
    as (metas & Hm & Hmetas).
  exists h', metas. split; [exact Hp|]. split; [exact Hm|].
  eapply Forall2_impl; [exact Hmetas|].
  intros a meta (c' & Hc' & Hmeta).
  change (h' !! a = Some c') in Hc'.
  change (MetaGenerator.class_meta h' c' = Ok meta) in Hmeta.
  destruct (names_of_total classes h' a c' Hcl' Hc') as [names Hn].
  destruct (class_meta_keys h' c' names Hn) as (meta' & Hmeta' & Emax & Emin & _).
  assert (meta' = meta) as -> by congruence.
  rewrite Emax, Emin. clear Hmeta Hmeta' Emax Emin.
  assert (Ha : a < length h).
  { rewrite <- (process_aggregations_length classes aggs h h' Hp).
    eapply lookup_lt_Some, Hc'. }
  apply lookup_lt_is_Some in Ha as [c Hc].
  assert (Hf : fresh c) by (eapply Forall_lookup in Hfresh; eauto).
  destruct Hf as (_ & Hmin & Hmax).
  exists c'. split; [exact Hc'|]. split; [reflexivity|]. split; [reflexivity|].
  split.
  - assert (Hpair : is_Some (ClassInfo.min_multiplicity c') <->
                    is_Some (ClassInfo.max_multiplicity c')).
    { apply (process_paired classes aggs h h' a c c' Hp Hc Hc').
      rewrite Hmin, Hmax. reflexivity. }
    destruct (ClassInfo.min_multiplicity c'), (ClassInfo.max_multiplicity c');
      simpl; split; intros E; try reflexivity; try discriminate E.
    + destruct (proj1 Hpair) as [? [=]]. eauto.
    + destruct (proj2 Hpair) as [? [=]]. eauto.
  - intros Hnever.
    destruct (process_effect classes aggs h h' a c Hp Hc)
      as (c'' & Hc'' & _ & _ & _ & _ & _ & Hkeep).
    assert (c'' = c') as -> by congruence.
    destruct (Hkeep Hnever) as [-> ->]. rewrite Hmin, Hmax. auto.
Qed.

Lemma C6_min_max_keys_witness :
  exists h' metas,
    ModelProcessor._process_aggregations (scenario_classes false)
      [scenario_edge (Some "0..5") None] (scenario_heap false "" "") = Ok h' /\
    MetaGenerator.meta_data
      (ModelProcessor.mk h' (scenario_classes false)
         [scenario_edge (Some "0..5") None]) = Ok metas /\
    Forall2 (fun a meta =>
               exists c,
                 h' !! a = Some c /\
                 dict_get "max" meta = JStr <$> ClassInfo.max_multiplicity c /\
                 dict_get "min" meta = JStr <$> ClassInfo.min_multiplicity c /\
                 (dict_get "min" meta = None <-> dict_get "max" meta = None) /\
                 (never_source (scenario_classes false)
                    [scenario_edge (Some "0..5") None] a ->
                  dict_get "min" meta = None /\ dict_get "max" meta = None))
            (dict_values (scenario_classes false)) metas.
Proof.
  apply (C6_min_max_keys (scenario_classes false)
           [scenario_edge (Some "0..5") None] (scenario_heap false "" "")).
  - split; repeat constructor.
  - repeat constructor.
  - repeat constructor. intros _. simpl. eauto.
Defined.

(** C7: when every class of the model has [is_root] false, [generate]
    returns the empty string, at any recursion budget and without raising;
    when some class has [is_root] true, [generate] is the rendering of the
    first such class in the iteration order of the class mapping. *)
Theorem C7_root_selection (m : ModelProcessor.t) (depth : nat) :
  (Forall (fun a => exists c, ModelProcessor.store m !! a = Some c /\
                              ClassInfo.is_root c = false)
          (dict_values (ModelProcessor.classes m)) ->
   ConfigGenerator.generate depth m = Ok "") /\
  (forall pre a post c,
     dict_values (ModelProcessor.classes m) = pre ++ a :: post ->
     Forall (fun b => exists cb, ModelProcessor.store m !! b = Some cb /\
                                 ClassInfo.is_root cb = false) pre ->
     ModelProcessor.store m !! a = Some c ->
     ClassInfo.is_root c = true ->
     ConfigGenerator.generate depth m =
     ConfigGenerator._build_xml depth (ModelProcessor.store m) a 0).
Proof.
  unfold ConfigGenerator.generate. split.
  - intros Hno. rewrite (first_root_none _ _ Hno). reflexivity.
  - intros pre a post c -> Hpre Hc Hr.
    rewrite (first_root_some _ pre post a c Hpre Hc Hr). reflexivity.
Qed.

Lemma C7_root_selection_witness :
  ConfigGenerator.generate 5
    (ModelProcessor.mk [class_B ""; class_B "other"]
       [(Some "B", 0); (Some "C", 1)] []) = Ok "" /\
  ConfigGenerator.generate 5
    (ModelProcessor.mk [class_B ""; class_A "first"; class_A "second"]
       [(Some "B", 0); (Some "A", 1); (Some "C", 2)] []) =
  ConfigGenerator._build_xml 5 [class_B ""; class_A "first"; class_A "second"] 1 0.
Proof.
  split.
  - apply (proj1 (C7_root_selection
                    (ModelProcessor.mk [class_B ""; class_B "other"]
                       [(Some "B", 0); (Some "C", 1)] []) 5)).
    repeat constructor; eexists; split; reflexivity.
  - apply (proj2 (C7_root_selection
                    (ModelProcessor.mk [class_B ""; class_A "first"; class_A "second"]
                       [(Some "B", 0); (Some "A", 1); (Some "C", 2)] []) 5)
             [0] 1 [2] (class_A "first")).
    + reflexivity.
    + repeat constructor. eexists; split; reflexivity.
    + reflexivity.
    + reflexivity.
Defined.

(** C8: the rendering of a class with no attributes and no children is
    its opening tag, a newline and its closing tag, with nothing between
    them and no indentation: [<Name>], newline, [</Name>], where [Name] is
    the name of the class as an f-string prints it. *)
Theorem C8_leaf_class (h : heap) (a : addr) (c : ClassInfo.t) (depth : nat) :
  h !! a = Some c ->
  ClassInfo.attributes c = [] ->
  ClassInfo.children c = [] ->
  ConfigGenerator._build_xml (S depth) h a 0 =
    Ok ("<" +:+ py_str (ClassInfo.name c) +:+ ">" +:+ nl +:+
        "</" +:+ py_str (ClassInfo.name c) +:+ ">") /\
  (forall n, ClassInfo.name c = Some n ->
     ConfigGenerator._build_xml (S depth) h a 0 =
       Ok ("<" +:+ n +:+ ">" +:+ nl +:+ "</" +:+ n +:+ ">")).
Proof.
  intros Hc Ha Hk.
  pose proof (build_xml_leaf h a c depth 0 Hc Ha Hk) as H.
  split; [exact H|]. intros n Hn. rewrite H, Hn. reflexivity.
Qed.

Lemma C8_leaf_class_witness :
  ConfigGenerator._build_xml 1 [class_A ""] 0 0 =
    Ok ("<" +:+ py_str (Some "A") +:+ ">" +:+ nl +:+
        "</" +:+ py_str (Some "A") +:+ ">") /\
  (forall n, Some "A" = Some n ->
     ConfigGenerator._build_xml 1 [class_A ""] 0 0 =
       Ok ("<" +:+ n +:+ ">" +:+ nl +:+ "</" +:+ n +:+ ">")).
Proof.
  apply (C8_leaf_class [class_A ""] 0 (class_A "") 0); reflexivity.
Defined.



(** C10: an [Aggregation] element without the attribute
    [sourceMultiplicity] is parsed into an edge whose multiplicity is
    [None]; when the source and the target of that edge are both keys of
    the class mapping, [process] raises [AttributeError]: the edge is
    neither skipped nor given a default multiplicity. *)
Theorem C10_missing_multiplicity_raises (root e : Element) (t s : addr) :
  In e (findall_descendant "Aggregation" root) ->
  get "sourceMultiplicity" e = None ->
  dict_get (get "target" e) (snd (XMIParser._parse_classes root)) = Some t ->
  dict_get (get "source" e) (snd (XMIParser._parse_classes root)) = Some s ->
  In (mkAggregation (get "source" e) (get "target" e) None
        (get "targetMultiplicity" e))
     (XMIParser._parse_aggregations root) /\
  ModelProcessor.process root = Raise AttributeError.
Proof.
  intros Hin Hnone Ht Hs.
  assert (Hagg : In (mkAggregation (get "source" e) (get "target" e) None
                       (get "targetMultiplicity" e))
                    (XMIParser._parse_aggregations root)).
  { unfold XMIParser._parse_aggregations. rewrite <- Hnone.
    apply (in_map (fun agg => mkAggregation (get "source" agg) (get "target" agg)
             (get "sourceMultiplicity" agg) (get "targetMultiplicity" agg))), Hin. }
  split; [exact Hagg|].
  unfold ModelProcessor.process, XMIParser.parse.
  destruct (XMIParser._parse_classes root) as [h classes]. cbn [snd] in Ht, Hs.
  rewrite (process_aggregations_raise classes _ h _ t s Hagg);
    [reflexivity | apply resolve_Some; auto | reflexivity].
Qed.

Lemma C10_missing_multiplicity_raises_witness :
  In (mkAggregation (Some "B") (Some "A") None None)
     (XMIParser._parse_aggregations (scenario_document [])) /\
  ModelProcessor.process (scenario_document []) = Raise AttributeError.
Proof.
  apply (C10_missing_multiplicity_raises (scenario_document [])
           (Elem "Aggregation" [("source", "B"); ("target", "A")] []) 0 1).
  - simpl. auto.
  - reflexivity.
  - reflexivity.
  - reflexivity.
Defined.

(** * Further properties *)

(** ** The class mapping the parser builds *)

Lemma parse_class_eq (h : heap) (d : classmap) (e : Element) :
  XMIParser.parse_class (h, d) e =
  (h ++ [parsed_object e], dict_set (get "name" e) (length h) d).
Proof. reflexivity. Qed.

Lemma parse_fold_heap (l : list Element) (h : heap) (d : classmap) :
  fst (fold_left XMIParser.parse_class l (h, d)) = h ++ map parsed_object l.
Proof.
  revert h d. induction l as [|e l IH]; intros h d; cbn [fold_left map].
  - rewrite app_nil_r. reflexivity.
  - rewrite parse_class_eq, IH, <- app_assoc. reflexivity.
Qed.

(** Elements of other names leave the entry of a name alone. *)
Lemma parse_fold_other (l : list Element) (h : heap) (d : classmap)
  (k : option string) :
  Forall (fun e => get "name" e <> k) l ->
  dict_get k (snd (fold_left XMIParser.parse_class l (h, d))) = dict_get k d.
Proof.
  intros Hl. revert h d. induction Hl as [|e l He _ IH]; intros h d; [reflexivity|].
  cbn [fold_left]. rewrite parse_class_eq, IH, dict_get_set.
  rewrite decide_False by congruence. reflexivity.
Qed.

Lemma parse_fold_last (pre post : list Element) (e : Element) (h : heap)
  (d : classmap) :
  Forall (fun e' => get "name" e' <> get "name" e) post ->
  dict_get (get "name" e)
    (snd (fold_left XMIParser.parse_class (pre ++ e :: post) (h, d))) =
  Some (length h + length pre).
Proof.
  intros Hpost. rewrite fold_left_app. cbn [fold_left].
  pose proof (parse_fold_heap pre h d) as Hh.
  destruct (fold_left XMIParser.parse_class pre (h, d)) as [h1 d1].
  cbn [fst] in Hh. rewrite parse_class_eq, parse_fold_other by exact Hpost.
  rewrite dict_get_set, decide_True by reflexivity.
  rewrite Hh, length_app, length_map. reflexivity.
Qed.

Lemma dict_set_keys {K V} `{EqDecision K} (k : K) (v : V) (d : list (K * V)) :
  map fst (dict_set k v d) =
  if decide (elem_of k (map fst d)) then map fst d else map fst d ++ [k].
Proof.
  induction d as [|[k' v'] d IH]; cbn [dict_set map fst app].
  - rewrite decide_False by apply not_elem_of_nil. reflexivity.
  - destruct (decide (k = k')) as [->|Hne]; cbn [map fst].
    + rewrite decide_True by apply list_elem_of_here. reflexivity.
    + rewrite IH. destruct (decide (elem_of k (map fst d))) as [Hin|Hout].
      * rewrite decide_True by (apply list_elem_of_further, Hin). reflexivity.
      * rewrite decide_False by (rewrite elem_of_cons; intros [E|Hin]; [congruence | auto]).
        reflexivity.
Qed.

Lemma first_occurrences_elem {A} `{EqDecision A} (x : A) (l : list A) :
  elem_of x (first_occurrences l) <-> elem_of x l.
Proof.
  induction l as [|y l IH]; cbn [first_occurrences]; [reflexivity|].
  rewrite !elem_of_cons, list_elem_of_filter, IH.
  destruct (decide (x = y)); intuition congruence.
Qed.

Lemma first_occurrences_NoDup {A} `{EqDecision A} (l : list A) :
  NoDup (first_occurrences l).
Proof.
  induction l as [|y l IH]; cbn [first_occurrences]; constructor.
  - rewrite list_elem_of_filter. intros [Hne _]. congruence.
  - apply NoDup_filter, IH.
Qed.

(** The keys after the loop: the keys before it, then the new names in
    the order of their first occurrences. *)
Lemma parse_fold_keys (l : list Element) (h : heap) (d : classmap) :
  map fst (snd (fold_left XMIParser.parse_class l (h, d))) =
  map fst d ++
  filter (fun k => ~ elem_of k (map fst d)) (first_occurrences (map (get "name") l)).
Proof.
  revert h d. induction l as [|e l IH]; intros h d;
    cbn [fold_left map first_occurrences].
  - rewrite filter_nil, app_nil_r. reflexivity.
  - rewrite parse_class_eq, IH, dict_set_keys, filter_cons.
    destruct (decide (elem_of (get "name" e) (map fst d))) as [Hin|Hout].
    + rewrite decide_False by tauto. f_equal.
      rewrite list_filter_filter. apply list_filter_iff.
      intros k. split; [|tauto]. intros Hk. split; [exact Hk | congruence].
    + rewrite decide_True by exact Hout. rewrite <- app_assoc. cbn [app].
      do 2 f_equal. rewrite list_filter_filter. apply list_filter_iff.
      intros k. rewrite elem_of_app, list_elem_of_singleton. tauto.
Qed.

Lemma filter_all {A} (P : A -> Prop) `{forall x, Decision (P x)} (l : list A) :
  (forall x, P x) -> filter P l = l.
Proof.
  intros HP. induction l as [|x l IH]; [reflexivity|].
  rewrite filter_cons, decide_True by apply HP. rewrite IH. reflexivity.
Qed.

Lemma dict_get_None_keys {K V} `{EqDecision K} (k : K) (d : list (K * V)) :
  dict_get k d = None <-> ~ elem_of k (map fst d).
Proof.
  induction d as [|[k' v] d IH]; cbn [dict_get map fst].
  - split; [intros _; apply not_elem_of_nil | reflexivity].
  - rewrite elem_of_cons. destruct (decide (k = k')) as [->|Hne].
    + split; [discriminate | intros H; exfalso; apply H; left; reflexivity].
    + rewrite IH. tauto.
Qed.

(** ** The element tree *)

Lemma Element_induction (P : Element -> Prop) :
  (forall t a ks, Forall P ks -> P (Elem t a ks)) -> forall e, P e.
Proof.
  intros H. fix IH 1. intros [t a ks]. apply H.
  induction ks as [|k ks IHks]; constructor; [apply IH | exact IHks].
Qed.

Lemma in_descendants (t : string) (a : list (string * string)) (ks : list Element)
  (x : Element) :
  In x (descendants (Elem t a ks)) <->
  exists k, In k ks /\ (x = k \/ In x (descendants k)).
Proof.
  cbn [descendants]. rewrite in_flat_map. split.
  - intros (k & Hk & [<-|Hx]); eauto.
  - intros (k & Hk & [->|Hx]); exists k; (split; [exact Hk|]); [left | right]; auto.
Qed.

(** What lies below a descendant lies below the element. *)
Lemma descendants_trans (e e' x : Element) :
  In e' (descendants e) -> In x (descendants e') -> In x (descendants e).
Proof.
  revert e' x. induction e as [t a ks IH] using Element_induction.
  intros e' x (k & Hk & He')%in_descendants Hx.
  apply in_descendants. exists k. split; [exact Hk|]. right.
  destruct He' as [->|He']; [exact Hx|].
  rewrite Forall_forall in IH. eapply IH; eauto. apply list_elem_of_In, Hk.
Qed.

Lemma in_findall (t : string) (e x : Element) :
  In x (findall_descendant t e) <-> In x (descendants e) /\ tag x = t.
Proof.
  unfold findall_descendant. rewrite <- !list_elem_of_In, list_elem_of_filter.
  tauto.
Qed.

(** ** The parser, further *)

(** X1: when several [Class] elements carry the same name, the mapping
    holds the object of the last of them: if the [Class] elements of the
    document are [pre ++ e :: post] and no element of [post] has the name
    of [e], the name of [e] is mapped to the object built from [e]. *)
Theorem X1_last_duplicate_wins (root : Element) (pre post : list Element)
  (e : Element) :
  findall_descendant "Class" root = pre ++ e :: post ->
  Forall (fun e' => get "name" e' <> get "name" e) post ->
  exists a,
    dict_get (get "name" e) (snd (XMIParser._parse_classes root)) = Some a /\
    fst (XMIParser._parse_classes root) !! a = Some (parsed_object e).
Proof.
  intros Hl Hpost. exists (length pre). unfold XMIParser._parse_classes.
  rewrite Hl. split.
  - apply (parse_fold_last pre post e [] []), Hpost.
  - rewrite parse_fold_heap. cbn [app]. rewrite map_app. cbn [map].
    apply list_lookup_middle. rewrite length_map. reflexivity.
Qed.

Lemma X1_last_duplicate_wins_witness :
  exists a,
    dict_get (get "name" duplicate_A2)
      (snd (XMIParser._parse_classes duplicate_document)) = Some a /\
    fst (XMIParser._parse_classes duplicate_document) !! a =
      Some (parsed_object duplicate_A2).
Proof.
  apply (X1_last_duplicate_wins duplicate_document
           [duplicate_A1; duplicate_B] [] duplicate_A2).
  - reflexivity.
  - constructor.
Defined.

(** X2: the keys of the mapping the parser builds are the names of the
    [Class] elements, each once, in the order in which the names first
    occur in the document (a name used again keeps its place); a name
    that no [Class] element carries is not a key. *)
Theorem X2_mapping_keys (root : Element) :
  map fst (snd (XMIParser._parse_classes root)) =
    first_occurrences (map (get "name") (findall_descendant "Class" root)) /\
  NoDup (map fst (snd (XMIParser._parse_classes root))) /\
  (forall k, dict_get k (snd (XMIParser._parse_classes root)) = None <->
             Forall (fun e => get "name" e <> k) (findall_descendant "Class" root)).
Proof.
  assert (Hkeys : map fst (snd (XMIParser._parse_classes root)) =
    first_occurrences (map (get "name") (findall_descendant "Class" root))).
  { unfold XMIParser._parse_classes. rewrite parse_fold_keys. cbn [map app].
    apply filter_all. intros k. apply not_elem_of_nil. }
  split; [exact Hkeys|]. rewrite Hkeys.
  split; [apply first_occurrences_NoDup|].
  intros k. rewrite dict_get_None_keys, Hkeys, first_occurrences_elem.
  rewrite Forall_forall, list_elem_of_fmap. split.
  - intros Hno e He Hk. apply Hno. exists e. split; [symmetry; exact Hk | exact He].
  - intros Hall (e & -> & He). apply (Hall e He). reflexivity.
Qed.

(** X3: the search for [Class] and [Attribute] elements goes to any
    depth, so a class declared inside another class is a class of the
    model as well, and its attributes are also attributes of the enclosing
    class. *)
Theorem X3_nested_classes (root e e' : Element) :
  In e (findall_descendant "Class" root) ->
  In e' (findall_descendant "Class" e) ->
  In (parsed_object e) (fst (XMIParser._parse_classes root)) /\
  In (parsed_object e') (fst (XMIParser._parse_classes root)) /\
  (forall attr, In attr (ClassInfo.attributes (parsed_object e')) ->
                In attr (ClassInfo.attributes (parsed_object e))).
Proof.
  intros [He Ht]%in_findall [He' Ht']%in_findall.
  assert (Hheap : fst (XMIParser._parse_classes root) =
                  map parsed_object (findall_descendant "Class" root)).
  { unfold XMIParser._parse_classes. apply parse_fold_heap. }
  rewrite Hheap. split; [|split].
  - apply in_map, in_findall. auto.
  - apply in_map, in_findall. split; [|exact Ht'].
    eapply descendants_trans; eauto.
  - cbn [parsed_object ClassInfo.attributes]. intros attr (x & <- & Hx)%in_map_iff.
    apply in_map. apply in_findall in Hx as [Hx Hxt]. apply in_findall.
    split; [|exact Hxt]. eapply descendants_trans; eauto.
Qed.

Lemma X3_nested_classes_witness :
  In (parsed_object nested_outer) (fst (XMIParser._parse_classes nested_document)) /\
  In (parsed_object nested_inner) (fst (XMIParser._parse_classes nested_document)) /\
  (forall attr, In attr (ClassInfo.attributes (parsed_object nested_inner)) ->
                In attr (ClassInfo.attributes (parsed_object nested_outer))).
Proof.
  apply (X3_nested_classes nested_document nested_outer nested_inner).
  - simpl. auto.
  - simpl. auto.
Defined.

(** ** The model processor, further *)

(** Either no edge of the list resolves with the object at [a] as its
    source, or there is a last one that does. *)
Lemma last_source_split (classes : classmap) (aggs : list Aggregation) (a : addr) :
  never_source classes aggs a \/
  exists pre agg post t,
    aggs = pre ++ agg :: post /\
    resolve classes agg = Some (t, a) /\
    never_source classes post a.
Proof.
  induction aggs as [|x l [IH|(pre & agg & post & t & -> & Hr & Hpost)]].
  - left. constructor.
  - destruct (resolve classes x) as [[t s]|] eqn:Hx.
    + destruct (decide (s = a)) as [->|Hne].
      * right. exists [], x, l, t. auto.
      * left. constructor; [|exact IH]. intros t'. congruence.
    + left. constructor; [|exact IH]. intros t'. congruence.
  - right. exists (x :: pre), agg, post, t. auto.
Qed.

(** When the loop raises, a resolved edge without multiplicity is the
    cause and the error is [AttributeError]. *)
Lemma process_aggregations_culprit (classes : classmap) (aggs : list Aggregation)
  (h : heap) (e : error) :
  ModelProcessor._process_aggregations classes aggs h = Raise e ->
  e = AttributeError /\
  exists agg t s,
    In agg aggs /\ resolve classes agg = Some (t, s) /\
    sourceMultiplicity agg = None.
Proof.
  revert h. induction aggs as [|x l IH]; intros h; [discriminate|].
  rewrite process_aggregations_cons.
  destruct (process_aggregation_outcome classes h x)
    as [Hr|t s Hr Hm|t s m lo hi Hr Hm Hlo Hhi]; cbn [bind].
  - intros (-> & agg & t & s & Hin & H)%IH. split; [reflexivity|].
    exists agg, t, s. split; [right; exact Hin | exact H].
  - intros [= <-]. split; [reflexivity|]. exists x, t, s.
    split; [left; reflexivity | auto].
  - intros (-> & agg & t' & s' & Hin & H)%IH. split; [reflexivity|].
    exists agg, t', s'. split; [right; exact Hin | exact H].
Qed.

(** X4: the loop over the edges returns exactly when every edge that
    resolves carries a multiplicity string; when it raises, it raises
    [AttributeError] because of an edge that resolves and has no
    multiplicity.  It never raises [IndexError]: [split] returns at least
    one segment. *)
Theorem X4_only_attribute_error (classes : classmap) (aggs : list Aggregation)
  (h : heap) :
  (Forall (splittable classes) aggs <->
   exists h', ModelProcessor._process_aggregations classes aggs h = Ok h') /\
  (forall e,
     ModelProcessor._process_aggregations classes aggs h = Raise e ->
     e = AttributeError /\
     exists agg t s,
       In agg aggs /\ resolve classes agg = Some (t, s) /\
       sourceMultiplicity agg = None).
Proof.
  split; [apply process_aggregations_total|].
  intros e. apply process_aggregations_culprit.
Qed.

(** X5: the loop over the edges changes nothing but children and bounds:
    the heap keeps its size, every object keeps its name, root flag,
    documentation and attributes, and its children list only grows at the
    end. *)
Theorem X5_loop_frame (classes : classmap) (aggs : list Aggregation) (h : heap) :
  Forall (splittable classes) aggs ->
  exists h',
    ModelProcessor._process_aggregations classes aggs h = Ok h' /\
    length h' = length h /\
    forall a c, h !! a = Some c ->
      exists c' added,
        h' !! a = Some c' /\
        ClassInfo.name c' = ClassInfo.name c /\
        ClassInfo.is_root c' = ClassInfo.is_root c /\
        ClassInfo.documentation c' = ClassInfo.documentation c /\
        ClassInfo.attributes c' = ClassInfo.attributes c /\
        ClassInfo.children c' = ClassInfo.children c ++ added.
Proof.
  intros Hall. apply (process_aggregations_total classes aggs h) in Hall as [h' Hp].
  exists h'. split; [exact Hp|].
  split; [eapply process_aggregations_length, Hp|].
  intros a c Hc.
  destruct (process_effect classes aggs h h' a c Hp Hc)
    as (c' & Hc' & Hn & Hr & Hd & Ha & Hk & _).
  exists c', (sources_into classes a aggs). auto 10.
Qed.

Lemma X5_loop_frame_witness :
  exists h',
    ModelProcessor._process_aggregations (scenario_classes false)
      [scenario_edge (Some "0..5") None] (scenario_heap false "" "") = Ok h' /\
    length h' = length (scenario_heap false "" "") /\
    forall a c, scenario_heap false "" "" !! a = Some c ->
      exists c' added,
        h' !! a = Some c' /\
        ClassInfo.name c' = ClassInfo.name c /\
        ClassInfo.is_root c' = ClassInfo.is_root c /\
        ClassInfo.documentation c' = ClassInfo.documentation c /\
        ClassInfo.attributes c' = ClassInfo.attributes c /\
        ClassInfo.children c' = ClassInfo.children c ++ added.
Proof.
  apply (X5_loop_frame (scenario_classes false)
           [scenario_edge (Some "0..5") None] (scenario_heap false "" "")).
  repeat constructor. intros _. simpl. eauto.
Defined.

(** X6: starting from the objects as the parser leaves them, the bounds
    of an object after the loop have one origin only: either no edge
    resolves with the object as its source and both bounds are unset, or
    both are set and are the first and the last segment of the multiplicity
    of the last edge that resolves with it as its source. *)
Theorem X6_bounds_origin (classes : classmap) (aggs : list Aggregation) (h : heap)
  (a : addr) (c : ClassInfo.t) :
  Forall (splittable classes) aggs ->
  Forall fresh h ->
  h !! a = Some c ->
  exists h' c',
    ModelProcessor._process_aggregations classes aggs h = Ok h' /\
    h' !! a = Some c' /\
    ((never_source classes aggs a /\
      ClassInfo.min_multiplicity c' = None /\
      ClassInfo.max_multiplicity c' = None) \/
     (exists pre agg post t m lo hi,
        aggs = pre ++ agg :: post /\
        resolve classes agg = Some (t, a) /\
        sourceMultiplicity agg = Some m /\
        never_source classes post a /\
        head (split ".." m) = Some lo /\
        last (split ".." m) = Some hi /\
        ClassInfo.min_multiplicity c' = Some lo /\
        ClassInfo.max_multiplicity c' = Some hi)).
Proof.
  intros Hall Hfresh Hc.
  pose proof Hall as [h' Hp]%(process_aggregations_total classes aggs h).
  assert (Hf : fresh c) by (eapply Forall_lookup in Hfresh; eauto).
  destruct Hf as (_ & Hmin & Hmax).
  destruct (last_source_split classes aggs a)
    as [Hnever|(pre & agg & post & t & -> & Hr & Hpost)].
  - destruct (process_effect classes aggs h h' a c Hp Hc)
      as (c' & Hc' & _ & _ & _ & _ & _ & Hkeep).
    destruct (Hkeep Hnever) as [E1 E2].
    exists h', c'. split; [exact Hp|]. split; [exact Hc'|]. left.
    split; [exact Hnever|]. split; congruence.
  - assert (Hm : exists m, sourceMultiplicity agg = Some m).
    { rewrite Forall_app in Hall. destruct Hall as [_ Hall].
      inversion Hall as [|? ? Hagg _]; subst. apply Hagg. eauto. }
    destruct Hm as [m Hm].
    destruct (process_last_source classes pre agg post h h' t a m c Hp Hc Hr Hm Hpost)
      as (c' & Hc' & Hlo & Hhi).
    destruct (split_aux_cons ".." 0 "" m) as (lo & l & Hseg).
    fold (split ".." m) in Hseg.
    assert (Hlast : exists hi, last (split ".." m) = Some hi)
      by (apply last_is_Some; rewrite Hseg; discriminate).
    destruct Hlast as [hi Hlast].
    exists h', c'. split; [exact Hp|]. split; [exact Hc'|]. right.
    exists pre, agg, post, t, m, lo, hi.
    repeat (split; [first [reflexivity | assumption | (rewrite Hseg; reflexivity)]|]).
    split; [rewrite Hlo, Hseg; reflexivity | congruence].
Qed.

Lemma X6_bounds_origin_witness :
  exists h' c',
    ModelProcessor._process_aggregations (scenario_classes false)
      [scenario_edge (Some "1..*") None; scenario_edge (Some "0..5") None]
      (scenario_heap false "" "") = Ok h' /\
    h' !! 1 = Some c' /\
    ((never_source (scenario_classes false)
        [scenario_edge (Some "1..*") None; scenario_edge (Some "0..5") None] 1 /\
      ClassInfo.min_multiplicity c' = None /\
      ClassInfo.max_multiplicity c' = None) \/
     (exists pre agg post t m lo hi,
        [scenario_edge (Some "1..*") None; scenario_edge (Some "0..5") None] =
          pre ++ agg :: post /\
        resolve (scenario_classes false) agg = Some (t, 1) /\
        sourceMultiplicity agg = Some m /\
        never_source (scenario_classes false) post 1 /\
        head (split ".." m) = Some lo /\
        last (split ".." m) = Some hi /\
        ClassInfo.min_multiplicity c' = Some lo /\
        ClassInfo.max_multiplicity c' = Some hi)).
Proof.
  apply (X6_bounds_origin (scenario_classes false)
           [scenario_edge (Some "1..*") None; scenario_edge (Some "0..5") None]
           (scenario_heap false "" "") 1 (class_B "")).
  - repeat constructor; intros _; simpl; eauto.
  - repeat constructor.
  - reflexivity.
Defined.

(** X7: after a document is processed, every child of every class is
    itself a class of the mapping, stored there under its own name; so
    every child has a metadata object of its own. *)
Theorem X7_children_are_classes (root : Element) (m : ModelProcessor.t)
  (a b : addr) (c : ClassInfo.t) :
  ModelProcessor.process root = Ok m ->
  ModelProcessor.store m !! a = Some c ->
  In b (ClassInfo.children c) ->
  exists k cb,
    dict_get k (ModelProcessor.classes m) = Some b /\
    ModelProcessor.store m !! b = Some cb /\
    ClassInfo.name cb = k.
Proof.
  unfold ModelProcessor.process, XMIParser.parse.
  destruct (parse_classes_state root) as (Hcl & Hfresh & Hkeyed).
  destruct (XMIParser._parse_classes root) as [h classes].
  cbn [fst snd] in Hcl, Hfresh, Hkeyed.
  intros (h' & Hp & [= <-])%bind_Ok. cbn [ModelProcessor.store ModelProcessor.classes].
  intros Hc Hb.
  assert (Ha : a < length h).
  { rewrite <- (process_aggregations_length classes _ h h' Hp).
    eapply lookup_lt_Some, Hc. }
  apply lookup_lt_is_Some in Ha as [c0 Hc0].
  destruct (process_effect classes _ h h' a c0 Hp Hc0)
    as (c' & Hc' & _ & _ & _ & _ & Hk & _).
  assert (c' = c) as -> by congruence.
  assert (Hf : fresh c0) by (eapply Forall_lookup in Hfresh; eauto).
  destruct Hf as (Hnil & _). rewrite Hnil in Hk. cbn [app] in Hk.
  rewrite Hk in Hb. apply sources_into_keys in Hb as [k Hkb].
  destruct (process_keyed classes _ h h' Hp Hkeyed k b Hkb) as (cb & Hcb & Hn).
  exists k, cb. auto.
Qed.

Lemma X7_children_are_classes_witness :
  exists k cb,
    dict_get k (scenario_classes false) = Some 1 /\
    [ClassInfo.mk (Some "A") true "" [] [1] None None;
     ClassInfo.mk (Some "B") false "bee" [Attribute.mk (Some "x") (Some "int")] []
       (Some "0") (Some "5")] !! 1 = Some cb /\
    ClassInfo.name cb = k.
Proof.
  apply (X7_children_are_classes
           (scenario_document [("sourceMultiplicity", "0..5")])
           (ModelProcessor.mk
              [ClassInfo.mk (Some "A") true "" [] [1] None None;
               ClassInfo.mk (Some "B") false "bee"
                 [Attribute.mk (Some "x") (Some "int")] [] (Some "0") (Some "5")]
              (scenario_classes false) [scenario_edge (Some "0..5") None])
           0 1 (ClassInfo.mk (Some "A") true "" [] [1] None None)).
  - reflexivity.
  - reflexivity.
  - left. reflexivity.
Defined.

(** ** What the bounds of an edge are *)

Lemma string_snoc_inv (s : string) :
  s = "" \/ exists s' c, s = s' +:+ String c "".
Proof.
  induction s as [|x s [->|(s' & c & ->)]]; [left; reflexivity | |].
  - right. exists "", x. reflexivity.
  - right. exists (String x s'), c. reflexivity.
Qed.

Lemma string_snoc_inj (a b : string) (x y : ascii) :
  a +:+ String x "" = b +:+ String y "" -> a = b /\ x = y.
Proof.
  revert b. induction a as [|c a IH]; intros [|d b]; rewrite ?append_cons.
  - intros [= ->]. auto.
  - destruct b; discriminate.
  - destruct a; discriminate.
  - intros [= -> H]. apply IH in H as [-> ->]. auto.
Qed.

Lemma append_nil_inv (a b : string) : a +:+ b = "" -> a = "" /\ b = "".
Proof. destruct a; [auto | discriminate]. Qed.

Lemma occurs_app_l (sep a b : string) : occurs sep a -> occurs sep (a +:+ b).
Proof.
  intros (x & y & ->). exists x, (y +:+ b). rewrite !append_assoc. reflexivity.
Qed.

Lemma not_occurs_short (s : string) : ~ occurs ".." (first_char s).
Proof.
  intros (a & b & H). destruct s as [|c s]; cbn [first_char] in H.
  - symmetry in H. apply append_nil_inv in H as [_ H]. discriminate H.
  - destruct a as [|x [|y a]]; discriminate H.
Qed.

(** A separator in [w] followed by one more character is in [w] or ends
    at that character. *)
Lemma occurs_snoc (w : string) (d : ascii) :
  occurs ".." (w +:+ String d "") ->
  occurs ".." w \/ (d = "."%char /\ exists w', w = w' +:+ ".").
Proof.
  intros (a & b & H). destruct (string_snoc_inv b) as [->|(b' & c & ->)].
  - right. change (a +:+ ".." +:+ "") with (a +:+ String "." (String "." "")) in H.
    change (String "." (String "." "")) with ("." +:+ String "." "") in H.
    rewrite <- append_assoc in H. apply string_snoc_inj in H as [-> ->].
    split; [reflexivity | eauto].
  - left. change (".." +:+ b' +:+ String c "") with ((".." +:+ b') +:+ String c "") in H.
    rewrite <- append_assoc in H. apply string_snoc_inj in H as [-> _].
    exists a, b'. reflexivity.
Qed.

Lemma prefix_dots_false (c : ascii) (s : string) :
  String.prefix ".." (String c s) = false ->
  ~ (c = "."%char /\ first_char s = ".").
Proof.
  intros H [-> Hs]. destruct s as [|d s]; [discriminate Hs|].
  injection Hs as ->. destruct s; discriminate H.
Qed.

(** The scan keeps the segment it is reading free of separators, the
    next character included. *)
Lemma scan_step (cur : string) (c : ascii) (s : string) :
  ~ occurs ".." (cur +:+ first_char (String c s)) ->
  String.prefix ".." (String c s) = false ->
  ~ occurs ".." ((cur +:+ String c "") +:+ first_char s).
Proof.
  intros Hcur Hpre. cbn [first_char] in Hcur.
  destruct s as [|d s]; cbn [first_char].
  - rewrite append_nil_r. exact Hcur.
  - intros [H|(-> & w' & Hw)]%occurs_snoc; [exact (Hcur H)|].
    apply string_snoc_inj in Hw as [_ ->].
    apply (prefix_dots_false _ _ Hpre). auto.
Qed.

(** The first segment: everything when there is no separator, else what
    stands before the first separator. *)
Lemma split_aux_first (s cur lo : string) (l : list string) :
  ~ occurs ".." (cur +:+ first_char s) ->
  split_aux ".." 0 cur s = lo :: l ->
  (l = [] /\ lo = cur +:+ s /\ ~ occurs ".." lo) \/
  (exists pre rest,
     lo = cur +:+ pre /\ s = pre +:+ ".." +:+ rest /\ ~ occurs ".." (lo +:+ ".")).
Proof.
  revert cur. induction s as [|c s IH]; intros cur Hcur.
  - cbn [split_aux first_char] in *. intros [= <- <-]. left.
    rewrite append_nil_r in *. auto.
  - rewrite split_aux_eq. destruct (String.prefix ".." (String c s)) eqn:Hpre.
    + intros [= <- _]. right. apply prefix_dots in Hpre as [b Hb].
      injection Hb as -> ->. exists "", b. rewrite append_nil_r.
      split; [reflexivity|]. split; [reflexivity | exact Hcur].
    + intros Hsplit.
      destruct (IH _ (scan_step cur c s Hcur Hpre) Hsplit)
        as [(-> & -> & Hno)|(pre & rest & -> & -> & Hno)].
      * left. rewrite !append_assoc in *. auto.
      * right. exists (String c pre), rest.
        split; [rewrite append_assoc; reflexivity|]. split; [reflexivity|].
        rewrite !append_assoc in *. exact Hno.
Qed.

(** No segment contains a separator. *)
Lemma split_aux_segments (s : string) :
  (forall cur, ~ occurs ".." (cur +:+ first_char s) ->
     Forall (fun seg => ~ occurs ".." seg) (split_aux ".." 0 cur s)) /\
  (forall cur c, ~ occurs ".." (cur +:+ String c "") ->
     Forall (fun seg => ~ occurs ".." seg) (split_aux ".." 0 cur (String c s))).
Proof.
  induction s as [|d s [IH1 IH2]].
  - split; intros cur.
    + cbn [first_char split_aux]. rewrite append_nil_r. repeat constructor. assumption.
    + intros c Hcur. rewrite split_aux_eq.
      destruct (String.prefix ".." (String c "")) eqn:E.
      * apply prefix_dots in E as [b E]. discriminate E.
      * repeat constructor. exact Hcur.
  - assert (H1 : forall cur, ~ occurs ".." (cur +:+ first_char (String d s)) ->
        Forall (fun seg => ~ occurs ".." seg) (split_aux ".." 0 cur (String d s)))
      by (intros cur; apply IH2).
    split; [exact H1|]. intros cur c Hcur.
    destruct (String.prefix ".." (String c (String d s))) eqn:E.
    + apply prefix_dots in E as [b E]. injection E as -> -> ->.
      rewrite split_dots_sep. constructor.
      * intros H. apply Hcur. apply occurs_app_l, H.
      * apply IH1. apply not_occurs_short.
    + rewrite split_aux_eq, E. apply H1.
      apply (scan_step cur c (String d s)); assumption.
Qed.

Lemma split_segments (s : string) :
  Forall (fun seg => ~ occurs ".." seg) (split ".." s).
Proof. apply (proj1 (split_aux_segments s)), not_occurs_short. Qed.

(** The last segment ends the joined string, after a separator when it
    is not the only segment. *)
Lemma join_last (l : list string) (hi : string) :
  last l = Some hi ->
  exists front,
    join ".." l = front +:+ hi /\
    (front = "" \/ exists front', front = front' +:+ "..").
Proof.
  induction l as [|x [|y l] IH].
  - discriminate.
  - intros [= <-]. exists "". auto.
  - rewrite last_cons_cons. intros (front & Hj & Hfront)%IH.
    exists (x +:+ ".." +:+ front). rewrite join_cons, Hj, !append_assoc.
    split; [reflexivity|]. right.
    destruct Hfront as [->|[front' ->]].
    + exists x. reflexivity.
    + exists (x +:+ ".." +:+ front'). rewrite !append_assoc. reflexivity.
Qed.

(** X17: what the bounds written by a resolved edge are, read on the
    multiplicity string itself: the lower bound is the text before the
    first [".."] (the whole string when there is none); the upper bound
    contains no [".."] and ends the string, right after a [".."] unless it
    is the whole string. *)
Theorem X17_bounds_meaning (classes : classmap) (h : heap) (agg : Aggregation)
  (t s : addr) (m : string) (c : ClassInfo.t) :
  resolve classes agg = Some (t, s) ->
  sourceMultiplicity agg = Some m ->
  h !! s = Some c ->
  exists h' c' lo hi,
    ModelProcessor.process_aggregation classes h agg = Ok h' /\
    h' !! s = Some c' /\
    ClassInfo.min_multiplicity c' = Some lo /\
    ClassInfo.max_multiplicity c' = Some hi /\
    ((lo = m /\ hi = m /\ ~ occurs ".." m) \/
     (exists rest, m = lo +:+ ".." +:+ rest /\ ~ occurs ".." (lo +:+ "."))) /\
    ~ occurs ".." hi /\
    (exists front,
       m = front +:+ hi /\ (front = "" \/ exists front', front = front' +:+ "..")).
Proof.
  intros Hr Hm Hc.
  destruct (proj1 (process_aggregation_total classes h agg)) as [h' Hstep];
    [intros _; eauto|].
  destruct (edge_effect classes h agg h' s c Hstep Hc)
    as (c' & Hc' & _ & _ & _ & _ & _ & _ & Hset).
  destruct (Hset t m Hr Hm) as [Hmin Hmax].
  destruct (split_aux_cons ".." 0 "" m) as (lo & l & Hseg).
  assert (Hlast : exists hi, last (split ".." m) = Some hi).
  { apply last_is_Some. unfold split. rewrite Hseg. discriminate. }
  destruct Hlast as [hi Hhi].
  exists h', c', lo, hi.
  split; [exact Hstep|]. split; [exact Hc'|].
  split; [rewrite Hmin; unfold split; rewrite Hseg; reflexivity|].
  split; [congruence|]. split; [|split].
  - destruct (split_aux_first m "" lo l (not_occurs_short m) Hseg)
      as [(-> & -> & Hno)|(pre & rest & -> & -> & Hno)].
    + left. unfold split in Hhi. rewrite Hseg in Hhi. injection Hhi as <-. auto.
    + right. exists rest. auto.
  - pose proof (split_segments m) as Hall.
    apply last_Some in Hhi as [l' Hl']. rewrite Hl' in Hall.
    apply Forall_app in Hall as [_ Hall]. inversion Hall; assumption.
  - destruct (join_last _ _ Hhi) as (front & Hj & Hfront).
    rewrite join_split in Hj. eauto.
Qed.

Lemma X17_bounds_meaning_witness :
  exists h' c' lo hi,
    ModelProcessor.process_aggregation (scenario_classes false)
      (scenario_heap false "" "") (scenario_edge (Some "1...5") None) = Ok h' /\
    h' !! 1 = Some c' /\
    ClassInfo.min_multiplicity c' = Some lo /\
    ClassInfo.max_multiplicity c' = Some hi /\
    ((lo = "1...5" /\ hi = "1...5" /\ ~ occurs ".." "1...5") \/
     (exists rest, "1...5" = lo +:+ ".." +:+ rest /\ ~ occurs ".." (lo +:+ "."))) /\
    ~ occurs ".." hi /\
    (exists front,
       "1...5" = front +:+ hi /\
       (front = "" \/ exists front', front = front' +:+ "..")).
Proof.
  apply (X17_bounds_meaning (scenario_classes false) (scenario_heap false "" "")
           (scenario_edge (Some "1...5") None) 0 1 "1...5" (class_B ""));
    reflexivity.
Defined.

(** ** The configuration document, further *)

Lemma mapM_Raise_inv {A B} (f : A -> result B) (l : list A) (e : error) :
  mapM f l = Raise e -> exists y, In y l /\ f y = Raise e.
Proof.
  induction l as [|x l IH]; cbn [mapM]; [discriminate|].
  destruct (f x) as [y|e'] eqn:Hx; cbn [bind].
  - destruct (mapM f l) as [ys|e'']; cbn [bind]; [discriminate|].
    intros [= ->]. destruct IH as (y' & Hin & Hy'); [reflexivity|].
    exists y'. split; [right; exact Hin | exact Hy'].
  - intros [= ->]. exists x. split; [left; reflexivity | exact Hx].
Qed.

Lemma mapM_Raise {A B} (f : A -> result B) (l : list A) (b : A) (e0 : error) :
  In b l -> f b = Raise e0 ->
  (forall y e, In y l -> f y = Raise e -> e = e0) ->
  mapM f l = Raise e0.
Proof.
  intros Hin Hb Hall.
  destruct (mapM f l) as [ys|e] eqn:Hm.
  - exfalso. revert ys Hm. induction l as [|x l IH]; [destruct Hin|].
    cbn [mapM]. intros ys (y & Hy & (ys' & Hys & _)%bind_Ok)%bind_Ok.
    destruct Hin as [->|Hin]; [congruence|].
    eapply IH; eauto. intros y' e' Hy'. apply Hall. right. exact Hy'.
  - apply mapM_Raise_inv in Hm as (y & Hy & Hfy). f_equal. eapply Hall; eauto.
Qed.

Lemma mapM_stable {A B} (F : nat -> A -> result B) (l : list A) (n : nat) :
  (forall b, In b l -> exists s, forall d, n <= d -> F d b = Ok s) ->
  exists ss, forall d, n <= d -> mapM (F d) l = Ok ss.
Proof.
  induction l as [|x l IH]; intros Hall.
  - exists []. reflexivity.
  - destruct (Hall x) as [s Hs]; [left; reflexivity|].
    destruct IH as [ss Hss]; [intros b Hb; apply Hall; right; exact Hb|].
    exists (s :: ss). intros d Hd. cbn [mapM]. rewrite Hs, Hss by exact Hd.
    reflexivity.
Qed.

Section Render.
Context (classes : classmap) (h : heap).
Hypothesis Hclosed : closed classes h.

Lemma closed_children (a : addr) (c : ClassInfo.t) (b : addr) :
  h !! a = Some c -> In b (ClassInfo.children c) -> b < length h.
Proof.
  intros Hc Hb. destruct Hclosed as [_ Hh].
  eapply Forall_lookup in Hh; [|exact Hc].
  rewrite Forall_forall in Hh. apply Hh, list_elem_of_In, Hb.
Qed.

(** In a closed heap the rendering raises nothing but [RecursionDepth]. *)
Lemma build_xml_error (depth : nat) (a : addr) (indent : nat) (e : error) :
  a < length h ->
  ConfigGenerator._build_xml depth h a indent = Raise e -> e = RecursionDepth.
Proof.
  revert a indent. induction depth as [|d IH]; intros a indent Ha;
    cbn [ConfigGenerator._build_xml]; [congruence|].
  apply lookup_lt_is_Some in Ha as [c Hc]. unfold deref. rewrite Hc. cbn [bind].
  destruct (mapM (fun child => ConfigGenerator._build_xml d h child (indent + 1))
              (ClassInfo.children c)) as [kids|e'] eqn:Hm; cbn [bind]; [discriminate|].
  intros [= ->]. apply mapM_Raise_inv in Hm as (b & Hb & Hraise).
  eapply IH; [|exact Hraise]. eapply closed_children; eauto.
Qed.

(** A chain of [depth] child links uses up the budget [depth]. *)
Lemma build_xml_nests (depth : nat) (a : addr) (indent : nat) :
  nests h depth a ->
  ConfigGenerator._build_xml depth h a indent = Raise RecursionDepth.
Proof.
  revert a indent. induction depth as [|d IH]; intros a indent [x Hsteps];
    [reflexivity|].
  inversion Hsteps as [|? ? c b ? Hc Hb Hrest]; subst.
  cbn [ConfigGenerator._build_xml]. unfold deref. rewrite Hc. cbn [bind].
  rewrite (mapM_Raise _ _ b RecursionDepth); [reflexivity | exact Hb | |].
  - apply IH. exists x. exact Hrest.
  - intros y e Hy. apply build_xml_error. eapply closed_children; eauto.
Qed.

(** Without such a chain every budget from [depth] on gives the same
    document. *)
Lemma build_xml_returns (depth : nat) (a : addr) (indent : nat) :
  a < length h -> ~ nests h depth a ->
  exists s, forall d, depth <= d ->
    ConfigGenerator._build_xml d h a indent = Ok s.
Proof.
  revert a indent. induction depth as [|n IH]; intros a indent Ha Hno.
  - exfalso. apply Hno. exists a. constructor.
  - apply lookup_lt_is_Some in Ha as [c Hc].
    destruct (mapM_stable
                (fun d child => ConfigGenerator._build_xml d h child (indent + 1))
                (ClassInfo.children c) n) as [kids Hkids].
    { intros b Hb. apply IH; [eapply closed_children; eauto|].
      intros [x Hx]. apply Hno. exists x. econstructor; eauto. }
    eexists. intros d Hd. destruct d as [|d]; [lia|].
    cbn [ConfigGenerator._build_xml]. unfold deref. rewrite Hc. cbn [bind].
    rewrite Hkids by lia. reflexivity.
Qed.

Lemma steps_snoc (n : nat) (a x b : addr) (c : ClassInfo.t) :
  steps h n a x -> h !! x = Some c -> In b (ClassInfo.children c) ->
  steps h (S n) a b.
Proof.
  induction 1 as [a|n a ca b' x Hca Hb' _ IH]; intros Hc Hb.
  - econstructor; [exact Hc | exact Hb | constructor].
  - econstructor; [exact Hca | exact Hb' | apply IH; assumption].
Qed.

(** On a cycle the chains have every length. *)
Lemma cycle_nests (k : nat) (a : addr) :
  steps h (S k) a a -> forall n, nests h n a.
Proof.
  intros Hcycle n.
  assert (H : exists x j, steps h n a x /\ steps h j x a).
  { induction n as [|n (x & j & Hax & Hxa)].
    - exists a, 0. split; constructor.
    - destruct j as [|j].
      + inversion Hxa; subst.
        inversion Hcycle as [|? ? c b ? Hc Hb Hrest]; subst.
        exists b, k. split; [eapply steps_snoc; eauto | exact Hrest].
      + inversion Hxa as [|? ? c b ? Hc Hb Hrest]; subst.
        exists b, j. split; [eapply steps_snoc; eauto | exact Hrest]. }
  destruct H as (x & _ & Hx & _). exists x. exact Hx.
Qed.

Lemma steps_app (n m : nat) (a x y : addr) :
  steps h n a x -> steps h m x y -> steps h (n + m) a y.
Proof.
  induction 1 as [a|n a c b x Hc Hb _ IH]; intros Hxy; [exact Hxy|].
  cbn [Nat.add]. econstructor; [exact Hc | exact Hb | apply IH, Hxy].
Qed.

Lemma steps_prefix (n d : nat) (a x : addr) :
  steps h n a x -> d <= n -> nests h d a.
Proof.
  intros Hsteps. revert d.
  induction Hsteps as [a|n a c b x Hc Hb _ IH]; intros d Hd.
  - replace d with 0 by lia. exists a. constructor.
  - destruct d as [|d]; [exists a; constructor|].
    destruct (IH d) as [y Hy]; [lia|]. exists y. econstructor; eauto.
Qed.

(** From a class that reaches a cycle the chains have every length. *)
Lemma reach_cycle_nests (n k : nat) (a x : addr) :
  steps h n a x -> steps h (S k) x x -> forall d, nests h d a.
Proof.
  intros Hax Hcycle d. destruct (le_lt_dec d n) as [Hle|Hgt].
  - eapply steps_prefix; eauto.
  - destruct (cycle_nests k x Hcycle (d - n)) as [y Hy].
    exists y. replace d with (n + (d - n)) by lia. eapply steps_app; eauto.
Qed.

End Render.

Lemma join_bracket (opening closing : string) (middle : list string) :
  join nl ([opening] ++ middle ++ [closing]) =
  opening +:+ nl +:+ String.concat "" (map (fun line => line +:+ nl) middle)
  +:+ closing.
Proof.
  cbn [app]. revert opening. induction middle as [|x middle IH]; intros opening.
  - reflexivity.
  - cbn [app map] in *. rewrite join_cons, IH.
    destruct middle; cbn [map String.concat]; rewrite ?append_assoc; reflexivity.
Qed.

Lemma mapM_Forall2 {A B} (f : A -> result B) (l : list A) (l' : list B) :
  mapM f l = Ok l' -> Forall2 (fun x y => f x = Ok y) l l'.
Proof.
  revert l'. induction l as [|x l IH]; cbn [mapM]; intros l' H.
  - injection H as <-. constructor.
  - apply bind_Ok in H as (y & Hy & H).
    apply bind_Ok in H as (ys & Hys & [= <-]). constructor; auto.
Qed.

Lemma sources_into_In (classes : classmap) (aggs : list Aggregation)
  (agg : Aggregation) (t s : addr) :
  In agg aggs -> resolve classes agg = Some (t, s) ->
  In s (sources_into classes t aggs).
Proof.
  intros Hin Hr. unfold sources_into.
  apply list_elem_of_In, list_elem_of_omap. exists agg.
  split; [apply list_elem_of_In, Hin|].
  rewrite Hr, decide_True by reflexivity. reflexivity.
Qed.

(** X8: in a model whose references are valid, the rendering of a class
    at recursion budget [depth] fails exactly when a chain of [depth] child
    links starts at the class; otherwise it returns, and every larger
    budget returns the same document. *)
Theorem X8_render_depth (classes : classmap) (h : heap) (a depth : nat) :
  closed classes h ->
  a < length h ->
  (nests h depth a ->
   forall indent,
     ConfigGenerator._build_xml depth h a indent = Raise RecursionDepth) /\
  (~ nests h depth a ->
   forall indent, exists s, forall d, depth <= d ->
     ConfigGenerator._build_xml d h a indent = Ok s).
Proof.
  intros Hcl Ha. split.
  - intros Hn indent. eapply build_xml_nests; eauto.
  - intros Hn indent. eapply build_xml_returns; eauto.
Qed.

Lemma X8_render_depth_witness :
  (nests (ModelProcessor.store scenario_resolved) 1 0 ->
   forall indent,
     ConfigGenerator._build_xml 1 (ModelProcessor.store scenario_resolved) 0 indent =
     Raise RecursionDepth) /\
  (~ nests (ModelProcessor.store scenario_resolved) 1 0 ->
   forall indent, exists s, forall d, 1 <= d ->
     ConfigGenerator._build_xml d (ModelProcessor.store scenario_resolved) 0 indent =
     Ok s).
Proof.
  apply (X8_render_depth (scenario_classes false)
           (ModelProcessor.store scenario_resolved) 0 1).
  - split; repeat constructor.
  - simpl. lia.
Defined.

(** X9: a class from which a cycle of child links can be reached (in
    particular a class that lies on one) cannot be rendered: the rendering
    fails at every recursion budget. *)
Theorem X9_cycle_never_renders (classes : classmap) (h : heap) (a x n k : nat) :
  closed classes h ->
  steps h n a x ->
  steps h (S k) x x ->
  forall depth indent,
    ConfigGenerator._build_xml depth h a indent = Raise RecursionDepth.
Proof.
  intros Hcl Hax Hcycle depth indent.
  eapply build_xml_nests; [exact Hcl|]. eapply reach_cycle_nests; eauto.
Qed.

Lemma X9_cycle_never_renders_witness :
  ConfigGenerator._build_xml 1000
    [ClassInfo.mk (Some "R") true "" [] [1] None None;
     ClassInfo.mk (Some "A") false "" [] [2] None None;
     ClassInfo.mk (Some "B") false "" [] [1] None None] 0 0 =
  Raise RecursionDepth.
Proof.
  refine (X9_cycle_never_renders [(Some "R", 0); (Some "A", 1); (Some "B", 2)]
            [ClassInfo.mk (Some "R") true "" [] [1] None None;
             ClassInfo.mk (Some "A") false "" [] [2] None None;
             ClassInfo.mk (Some "B") false "" [] [1] None None] 0 1 1 1
            _ _ _ 1000 0).
  - split; repeat constructor.
  - eapply steps_S; [reflexivity | left; reflexivity | constructor].
  - eapply steps_S; [reflexivity | left; reflexivity |].
    eapply steps_S; [reflexivity | left; reflexivity |]. constructor.
Defined.

(** X10: in a list of edges on which the loop returns (every edge that
    resolves carries a multiplicity), an edge that resolves with the same
    class as source and target makes the class its own child, and in the
    heap the loop returns the class cannot be rendered at any recursion
    budget. *)
Theorem X10_self_aggregation (classes : classmap) (aggs : list Aggregation)
  (h : heap) (agg : Aggregation) (a : addr) :
  closed classes h ->
  Forall (splittable classes) aggs ->
  In agg aggs ->
  resolve classes agg = Some (a, a) ->
  exists h' c',
    ModelProcessor._process_aggregations classes aggs h = Ok h' /\
    h' !! a = Some c' /\
    In a (ClassInfo.children c') /\
    forall depth indent,
      ConfigGenerator._build_xml depth h' a indent = Raise RecursionDepth.
Proof.
  intros Hcl Hall Hin Hr.
  apply (process_aggregations_total classes aggs h) in Hall as [h' Hp].
  pose proof (process_closed classes aggs h h' Hp Hcl) as Hcl'.
  assert (Ha : a < length h).
  { destruct Hcl as [Hv _]. rewrite Forall_forall in Hv.
    apply Hv, list_elem_of_In. apply resolve_Some in Hr as [Ht _].
    eapply dict_get_values, Ht. }
  apply lookup_lt_is_Some in Ha as [c Hc].
  destruct (process_effect classes aggs h h' a c Hp Hc)
    as (c' & Hc' & _ & _ & _ & _ & Hk & _).
  assert (Hself : In a (ClassInfo.children c')).
  { rewrite Hk. apply in_or_app. right. eapply sources_into_In; eauto. }
  exists h', c'. split; [exact Hp|]. split; [exact Hc'|]. split; [exact Hself|].
  intros depth indent. eapply build_xml_nests; [exact Hcl'|].
  apply (cycle_nests h' 0 a). econstructor; [exact Hc' | exact Hself | constructor].
Qed.

Lemma X10_self_aggregation_witness :
  exists h' c',
    ModelProcessor._process_aggregations [(Some "A", 0)]
      [mkAggregation (Some "A") (Some "A") (Some "1") None] [class_A ""] = Ok h' /\
    h' !! 0 = Some c' /\
    In 0 (ClassInfo.children c') /\
    forall depth indent,
      ConfigGenerator._build_xml depth h' 0 indent = Raise RecursionDepth.
Proof.
  apply (X10_self_aggregation [(Some "A", 0)]
           [mkAggregation (Some "A") (Some "A") (Some "1") None] [class_A ""]
           (mkAggregation (Some "A") (Some "A") (Some "1") None) 0).
  - split; repeat constructor.
  - repeat constructor. intros _. simpl. eauto.
  - left. reflexivity.
  - reflexivity.
Defined.

(** X11: whenever a class is rendered, the text is, in this order: its
    opening tag at the indentation of the call; one line
    [<name>type</name>] per attribute, in attribute order, four spaces
    deeper; the renderings of its children, in children order, each made
    one level deeper; its closing tag at the indentation of the call.
    Every part but the closing tag is followed by a newline. *)
Theorem X11_render_brackets (h : heap) (a depth indent : nat) (c : ClassInfo.t)
  (s : string) :
  h !! a = Some c ->
  ConfigGenerator._build_xml depth h a indent = Ok s ->
  exists kids,
    Forall2 (fun child kid =>
               ConfigGenerator._build_xml (pred depth) h child (indent + 1) = Ok kid)
            (ClassInfo.children c) kids /\
    s = (str_mul "    " indent +:+ "<" +:+ py_str (ClassInfo.name c) +:+ ">")
        +:+ nl
        +:+ String.concat ""
              (map (fun line => line +:+ nl)
                 (map (fun attr =>
                         str_mul "    " indent +:+ "    <"
                         +:+ py_str (Attribute.name attr) +:+ ">"
                         +:+ py_str (Attribute.type attr)
                         +:+ "</" +:+ py_str (Attribute.name attr) +:+ ">")
                      (ClassInfo.attributes c)
                  ++ kids))
        +:+ (str_mul "    " indent +:+ "</" +:+ py_str (ClassInfo.name c) +:+ ">").
Proof.
  intros Hc. destruct depth as [|d]; cbn [ConfigGenerator._build_xml]; [discriminate|].
  unfold deref. rewrite Hc. cbn [bind].
  intros (kids & Hkids & [= <-])%bind_Ok.
  exists kids. split; [apply mapM_Forall2, Hkids|].
  rewrite app_assoc. apply join_bracket.
Qed.

Lemma X11_render_brackets_witness :
  exists kids,
    Forall2 (fun child kid =>
               ConfigGenerator._build_xml (pred 3)
                 (ModelProcessor.store scenario_resolved) child (1 + 1) = Ok kid)
            [] kids /\
    "    <B>" +:+ nl +:+ "        <x>int</x>" +:+ nl +:+ "    </B>" =
        (str_mul "    " 1 +:+ "<" +:+ py_str (Some "B") +:+ ">")
        +:+ nl
        +:+ String.concat ""
              (map (fun line => line +:+ nl)
                 (map (fun attr =>
                         str_mul "    " 1 +:+ "    <"
                         +:+ py_str (Attribute.name attr) +:+ ">"
                         +:+ py_str (Attribute.type attr)
                         +:+ "</" +:+ py_str (Attribute.name attr) +:+ ">")
                      [Attribute.mk (Some "x") (Some "int")]
                  ++ kids))
        +:+ (str_mul "    " 1 +:+ "</" +:+ py_str (Some "B") +:+ ">").
Proof.
  apply (X11_render_brackets (ModelProcessor.store scenario_resolved) 1 3 1
           (ClassInfo.mk (Some "B") false "" [Attribute.mk (Some "x") (Some "int")] []
              (Some "0") (Some "5"))
           ("    <B>" +:+ nl +:+ "        <x>int</x>" +:+ nl +:+ "    </B>"));
    reflexivity.
Defined.

(** ** What the configuration document depends on *)

Lemma mapM_ext_in {A B} (f g : A -> result B) (l : list A) :
  (forall x, In x l -> f x = g x) -> mapM f l = mapM g l.
Proof.
  induction l as [|x l IH]; intros H; [reflexivity|].
  cbn [mapM]. rewrite (H x) by (left; reflexivity).
  rewrite IH; [reflexivity|]. intros y Hy. apply H. right. exact Hy.
Qed.

(** X16: the configuration document is a function of the names, the
    attributes and the children of the classes only: two models that agree
    on these render every class alike, whatever their documentation, root
    flags and multiplicity bounds are. *)
Theorem X16_config_ignores_bounds (h1 h2 : heap) (depth a indent : nat) :
  Forall2 same_shape h1 h2 ->
  ConfigGenerator._build_xml depth h1 a indent =
  ConfigGenerator._build_xml depth h2 a indent.
Proof.
  intros Hshape. revert a indent.
  induction depth as [|d IH]; intros a indent; [reflexivity|].
  cbn [ConfigGenerator._build_xml]. unfold deref.
  destruct (h1 !! a) as [c1|] eqn:H1.
  - destruct (Forall2_lookup_l _ _ _ _ _ Hshape H1) as (c2 & -> & Hn & Ha & Hk).
    cbn [bind]. rewrite Hn, Ha, Hk.
    rewrite (mapM_ext_in _ (fun child => ConfigGenerator._build_xml d h2 child (indent + 1)));
      [reflexivity|]. intros b _. apply IH.
  - apply lookup_ge_None in H1. rewrite (Forall2_length _ _ _ Hshape) in H1.
    apply lookup_ge_None in H1. rewrite H1. reflexivity.
Qed.

Lemma X16_config_ignores_bounds_witness :
  ConfigGenerator._build_xml 3
    [ClassInfo.mk (Some "A") true "" [] [1] None None;
     ClassInfo.mk (Some "B") false "" [Attribute.mk (Some "x") (Some "int")] []
       (Some "0") (Some "5")] 0 0 =
  ConfigGenerator._build_xml 3
    [ClassInfo.mk (Some "A") false "doc" [] [1] None None;
     ClassInfo.mk (Some "B") true "" [Attribute.mk (Some "x") (Some "int")] []
       (Some "1") (Some "*")] 0 0.
Proof.
  apply (X16_config_ignores_bounds
    [ClassInfo.mk (Some "A") true "" [] [1] None None;
     ClassInfo.mk (Some "B") false "" [Attribute.mk (Some "x") (Some "int")] []
       (Some "0") (Some "5")]
    [ClassInfo.mk (Some "A") false "doc" [] [1] None None;
     ClassInfo.mk (Some "B") true "" [Attribute.mk (Some "x") (Some "int")] []
       (Some "1") (Some "*")] 3 0 0).
  repeat constructor.
Defined.

(** ** The metadata, further *)

(** The dictionary of a class, key by key in insertion order. *)
Lemma class_meta_layout (h : heap) (c : ClassInfo.t) (names : list (option string)) :
  names_of h (ClassInfo.children c) names ->
  MetaGenerator.class_meta h c =
  Ok ([("class", json_of_str (ClassInfo.name c));
       ("documentation", JStr (ClassInfo.documentation c));
       ("isRoot", JBool (ClassInfo.is_root c))]
      ++ match ClassInfo.max_multiplicity c with
         | Some v => [("max", JStr v)]
         | None => []
         end
      ++ match ClassInfo.min_multiplicity c with
         | Some v => [("min", JStr v)]
         | None => []
         end
      ++ [("parameters",
           JList (map attribute_param (ClassInfo.attributes c)
                  ++ map class_param names))]).
Proof.
  intros Hn. unfold MetaGenerator.class_meta.
  rewrite (parameters_spec h c names Hn).
  destruct (ClassInfo.max_multiplicity c), (ClassInfo.min_multiplicity c);
    reflexivity.
Qed.

Lemma class_meta_class (classes : classmap) (h : heap) (a : addr) (c : ClassInfo.t) :
  closed classes h -> h !! a = Some c ->
  exists meta,
    MetaGenerator.class_meta h c = Ok meta /\
    dict_get "class" meta = Some (json_of_str (ClassInfo.name c)).
Proof.
  intros Hcl Hc. destruct (names_of_total classes h a c Hcl Hc) as [names Hn].
  eexists. split; [apply (class_meta_layout h c names Hn)|].
  destruct (ClassInfo.max_multiplicity c), (ClassInfo.min_multiplicity c);
    reflexivity.
Qed.

(** X12: the metadata object of a class has its keys in a fixed order:
    [class], [documentation], [isRoot], then [max] and [min] (in this
    order, each only when set), then [parameters]; the first three carry
    the name, the documentation and the root flag of the class. *)
Theorem X12_meta_key_order (classes : classmap) (h : heap) (a : addr)
  (c : ClassInfo.t) :
  closed classes h ->
  h !! a = Some c ->
  exists meta,
    MetaGenerator.class_meta h c = Ok meta /\
    map fst meta =
      ["class"; "documentation"; "isRoot"]
      ++ match ClassInfo.max_multiplicity c with Some _ => ["max"] | None => [] end
      ++ match ClassInfo.min_multiplicity c with Some _ => ["min"] | None => [] end
      ++ ["parameters"] /\
    dict_get "class" meta = Some (json_of_str (ClassInfo.name c)) /\
    dict_get "documentation" meta = Some (JStr (ClassInfo.documentation c)) /\
    dict_get "isRoot" meta = Some (JBool (ClassInfo.is_root c)).
Proof.
  intros Hcl Hc. destruct (names_of_total classes h a c Hcl Hc) as [names Hn].
  eexists. split; [apply (class_meta_layout h c names Hn)|].
  destruct (ClassInfo.max_multiplicity c), (ClassInfo.min_multiplicity c);
    repeat split.
Qed.

Lemma X12_meta_key_order_witness :
  exists meta,
    MetaGenerator.class_meta (ModelProcessor.store scenario_resolved)
      (ClassInfo.mk (Some "B") false "" [Attribute.mk (Some "x") (Some "int")] []
         (Some "0") (Some "5")) = Ok meta /\
    map fst meta =
      ["class"; "documentation"; "isRoot"] ++ ["max"] ++ ["min"] ++ ["parameters"] /\
    dict_get "class" meta = Some (json_of_str (Some "B")) /\
    dict_get "documentation" meta = Some (JStr "") /\
    dict_get "isRoot" meta = Some (JBool false).
Proof.
  apply (X12_meta_key_order (scenario_classes false)
           (ModelProcessor.store scenario_resolved) 1
           (ClassInfo.mk (Some "B") false "" [Attribute.mk (Some "x") (Some "int")] []
              (Some "0") (Some "5"))).
  - split; repeat constructor.
  - reflexivity.
Defined.

Lemma dict_get_In {K V} `{EqDecision K} (k : K) (v : V) (d : list (K * V)) :
  NoDup (map fst d) -> In (k, v) d -> dict_get k d = Some v.
Proof.
  induction d as [|[k' v'] d IH]; cbn [map fst dict_get]; [intros _ []|].
  intros [Hk' Hd]%NoDup_cons [[= -> ->]|Hin].
  - rewrite decide_True by reflexivity. reflexivity.
  - destruct (decide (k = k')) as [->|Hne]; [|apply IH; assumption].
    exfalso. apply Hk'. apply list_elem_of_In.
    change k' with (fst (k', v)). apply in_map, Hin.
Qed.

(** The [class] entries of the metadata of mapped objects that carry
    their keys as names. *)
Lemma meta_data_class_entries (classes : classmap) (h : heap) (d : classmap) :
  closed classes h ->
  Forall (fun kv => exists c, h !! snd kv = Some c /\ ClassInfo.name c = fst kv) d ->
  exists metas,
    mapM (fun a => do c <- deref h a; MetaGenerator.class_meta h c) (dict_values d)
      = Ok metas /\
    map (dict_get "class") metas = map (fun kv => Some (json_of_str (fst kv))) d.
Proof.
  intros Hcl Hd. induction Hd as [|[k a] d (c & Hc & Hname) _ (metas & Hm & Hcls)].
  - exists []. split; reflexivity.
  - cbn [fst snd] in Hc, Hname.
    destruct (class_meta_class classes h a c Hcl Hc) as (meta & Hmeta & Hclass).
    exists (meta :: metas).
    change (dict_values ((k, a) :: d)) with (a :: dict_values d). cbn [mapM].
    unfold deref at 1. rewrite Hc. cbn [bind]. rewrite Hmeta. cbn [bind].
    rewrite Hm. cbn [bind]. split; [reflexivity|].
    cbn [map fst]. rewrite Hclass, Hcls, Hname. reflexivity.
Qed.

(** ** The pipeline *)

(** The model of a processed document: its references are valid and its
    classes are stored under their names, in the mapping the parser
    built. *)
Lemma process_model_state (root : Element) (m : ModelProcessor.t) :
  ModelProcessor.process root = Ok m ->
  closed (ModelProcessor.classes m) (ModelProcessor.store m) /\
  keyed (ModelProcessor.classes m) (ModelProcessor.store m) /\
  ModelProcessor.classes m = snd (XMIParser._parse_classes root).
Proof.
  unfold ModelProcessor.process, XMIParser.parse.
  destruct (parse_classes_state root) as (Hcl & _ & Hkeyed).
  destruct (XMIParser._parse_classes root) as [h classes].
  cbn [fst snd] in Hcl, Hkeyed.
  intros (h' & Hp & [= <-])%bind_Ok. cbn [ModelProcessor.store ModelProcessor.classes].
  split; [eapply process_closed; eauto|].
  split; [eapply process_keyed; eauto | reflexivity].
Qed.

Lemma process_error (root : Element) (e : error) :
  ModelProcessor.process root = Raise e -> e = AttributeError.
Proof.
  unfold ModelProcessor.process, XMIParser.parse.
  destruct (XMIParser._parse_classes root) as [h classes].
  destruct (ModelProcessor._process_aggregations classes
              (XMIParser._parse_aggregations root) h) as [h'|e'] eqn:Hp;
    cbn [bind]; [discriminate|].
  intros [= <-]. eapply process_aggregations_culprit, Hp.
Qed.

Lemma parse_classes_keys (root : Element) :
  map fst (snd (XMIParser._parse_classes root)) =
  first_occurrences (map (get "name") (findall_descendant "Class" root)).
Proof.
  unfold XMIParser._parse_classes. rewrite parse_fold_keys. cbn [map app].
  apply filter_all. intros k. apply not_elem_of_nil.
Qed.

(** X13: the metadata of a processed document lists the classes in the
    order in which their names first occur in the document, one object
    per name, whose [class] entry is that name. *)
Theorem X13_meta_class_order (root : Element) (m : ModelProcessor.t) :
  ModelProcessor.process root = Ok m ->
  exists metas,
    MetaGenerator.meta_data m = Ok metas /\
    map (dict_get "class") metas =
    map (fun k => Some (json_of_str k))
        (first_occurrences (map (get "name") (findall_descendant "Class" root))).
Proof.
  intros (Hcl & Hkeyed & Hclasses)%process_model_state.
  assert (Hnodup : NoDup (map fst (ModelProcessor.classes m))).
  { rewrite Hclasses, parse_classes_keys. apply first_occurrences_NoDup. }
  destruct (meta_data_class_entries (ModelProcessor.classes m)
              (ModelProcessor.store m) (ModelProcessor.classes m) Hcl)
    as (metas & Hm & Hcls).
  { apply Forall_forall. intros [k a] Hin%list_elem_of_In. cbn [fst snd].
    apply Hkeyed, dict_get_In; assumption. }
  exists metas. split; [exact Hm|].
  rewrite Hcls, <- parse_classes_keys, <- Hclasses, map_map. reflexivity.
Qed.

Lemma X13_meta_class_order_witness :
  exists metas,
    MetaGenerator.meta_data
      (ModelProcessor.mk [parsed_object duplicate_A1; parsed_object duplicate_B;
                          parsed_object duplicate_A2]
         [(Some "A", 2); (Some "B", 1)] []) = Ok metas /\
    map (dict_get "class") metas =
    map (fun k => Some (json_of_str k))
        (first_occurrences
           (map (get "name") (findall_descendant "Class" duplicate_document))).
Proof.
  apply (X13_meta_class_order duplicate_document
           (ModelProcessor.mk [parsed_object duplicate_A1; parsed_object duplicate_B;
                               parsed_object duplicate_A2]
              [(Some "A", 2); (Some "B", 1)] [])).
  reflexivity.
Defined.

(** X14: a document without [Class] elements is processed without error,
    whatever its aggregations are (none of them resolves); its
    configuration document is the empty string and its metadata is the
    empty JSON array.  The same holds for a new processor on which
    [parse_classes] has not been called. *)
Theorem X14_no_classes (root : Element) (depth : nat) :
  findall_descendant "Class" root = [] ->
  (exists m,
     XMLProcessor.parse_classes root = Ok m /\
     ModelProcessor.classes m = [] /\
     XMLProcessor.generate_config_xml depth m = Ok "" /\
     XMLProcessor.generate_meta_json m = Ok "[]") /\
  XMLProcessor.generate_config_xml depth XMLProcessor.init = Ok "" /\
  XMLProcessor.generate_meta_json XMLProcessor.init = Ok "[]".
Proof.
  intros Hnone. split; [|split; reflexivity].
  unfold XMLProcessor.parse_classes, ModelProcessor.process, XMIParser.parse,
    XMIParser._parse_classes.
  rewrite Hnone. cbn [fold_left].
  destruct (proj1 (process_aggregations_total [] (XMIParser._parse_aggregations root) []))
    as [h' Hp].
  { apply Forall_forall. intros agg _ [x Hx]. discriminate Hx. }
  pose proof (process_aggregations_length _ _ _ _ Hp) as Hlen.
  destruct h'; [|discriminate Hlen].
  rewrite Hp. cbn [bind]. eexists. split; [reflexivity|]. repeat split.
Qed.

Lemma X14_no_classes_witness :
  (exists m,
     XMLProcessor.parse_classes
       (Elem "XMI" [] [Elem "Aggregation" [("source", "A"); ("target", "B")] []])
       = Ok m /\
     ModelProcessor.classes m = [] /\
     XMLProcessor.generate_config_xml 3 m = Ok "" /\
     XMLProcessor.generate_meta_json m = Ok "[]") /\
  XMLProcessor.generate_config_xml 3 XMLProcessor.init = Ok "" /\
  XMLProcessor.generate_meta_json XMLProcessor.init = Ok "[]".
Proof.
  apply (X14_no_classes
           (Elem "XMI" [] [Elem "Aggregation" [("source", "A"); ("target", "B")] []]) 3).
  reflexivity.
Defined.

(** ** The generators after parsing *)

Lemma first_root_closed (classes : classmap) (h : heap) (values : list addr) :
  Forall (fun a => a < length h) values ->
  ConfigGenerator.first_root h values = Ok None \/
  exists a, a < length h /\ ConfigGenerator.first_root h values = Ok (Some a).
Proof.
  induction 1 as [|a values Ha _ IH]; [left; reflexivity|].
  cbn [ConfigGenerator.first_root].
  pose proof Ha as [c Hc]%lookup_lt_is_Some. unfold deref. rewrite Hc. cbn [bind].
  destruct (ClassInfo.is_root c); [right; eauto | exact IH].
Qed.

(** On a closed model the configuration raises nothing but
    [RecursionDepth]. *)
Lemma generate_config_error (m : ModelProcessor.t) (depth : nat) (e : error) :
  closed (ModelProcessor.classes m) (ModelProcessor.store m) ->
  ConfigGenerator.generate depth m = Raise e -> e = RecursionDepth.
Proof.
  intros Hcl. unfold ConfigGenerator.generate.
  destruct (first_root_closed (ModelProcessor.classes m) (ModelProcessor.store m)
              (dict_values (ModelProcessor.classes m)) (proj1 Hcl))
    as [->|(a & Ha & ->)]; cbn [bind]; [discriminate|].
  eapply build_xml_error; eauto.
Qed.

(** On a closed model the metadata is always produced. *)
Lemma generate_meta_total (m : ModelProcessor.t) :
  closed (ModelProcessor.classes m) (ModelProcessor.store m) ->
  exists meta, MetaGenerator.generate m = Ok meta.
Proof.
  intros Hcl. unfold MetaGenerator.generate.
  destruct (meta_data_classes m Hcl) as (metas & -> & _). cbn [bind]. eauto.
Qed.

(** X15: of the three methods of an [XMLProcessor], [parse_classes]
    raises nothing but [AttributeError]; on the model it leaves,
    [generate_meta_json] always returns a text, and [generate_config_xml]
    fails only when the recursion budget is used up. *)
Theorem X15_generators_after_parse (root : Element) :
  (forall e, XMLProcessor.parse_classes root = Raise e -> e = AttributeError) /\
  (forall m, XMLProcessor.parse_classes root = Ok m ->
     (exists meta, XMLProcessor.generate_meta_json m = Ok meta) /\
     (forall depth e,
        XMLProcessor.generate_config_xml depth m = Raise e -> e = RecursionDepth)).
Proof.
  unfold XMLProcessor.parse_classes, XMLProcessor.generate_meta_json,
    XMLProcessor.generate_config_xml.
  split; [intros e; apply process_error|].
  intros m (Hcl & _ & _)%process_model_state. split.
  - apply generate_meta_total, Hcl.
  - intros depth e. apply generate_config_error, Hcl.
Qed.

(** *** Examples *)

Example scenario_outputs :
  bind (XMLProcessor.parse_classes
          (scenario_document [("sourceMultiplicity", "0..5")]))
       (fun m => do config <- XMLProcessor.generate_config_xml 5 m;
                 do meta <- XMLProcessor.generate_meta_json m;
                 Ok (config, meta)) =
  Ok (scenario_config, scenario_json_text).
Proof. reflexivity. Qed.

Example self_aggregation_outputs (depth : nat) :
  exists m,
    XMLProcessor.parse_classes self_document = Ok m /\
    XMLProcessor.generate_config_xml depth m = Raise RecursionDepth /\
    exists meta, XMLProcessor.generate_meta_json m = Ok meta.
Proof.
  exists (ModelProcessor.mk
            [ClassInfo.mk (Some "A") true "" [] [0] (Some "1") (Some "1")]
            [(Some "A", 0)]
            [mkAggregation (Some "A") (Some "A") (Some "1") None]).
  split; [reflexivity|]. split; [|eexists; reflexivity].
  unfold XMLProcessor.generate_config_xml, ConfigGenerator.generate.
  cbn [ModelProcessor.store ModelProcessor.classes dict_values map snd
       ConfigGenerator.first_root].
  change (deref [ClassInfo.mk (Some "A") true "" [] [0] (Some "1") (Some "1")] 0)
    with (Ok (ClassInfo.mk (Some "A") true "" [] [0] (Some "1") (Some "1"))).
  cbn [bind ClassInfo.is_root].
  rewrite (build_xml_nests [(Some "A", 0)]); [reflexivity | split; repeat constructor |].
  apply (cycle_nests _ 0).
  eapply steps_S; [reflexivity | left; reflexivity | constructor].
Qed.

(** The escapes of [json.dumps] beyond ASCII: two-byte, three-byte and
    four-byte code points. *)
Example escape_examples :
  escape "é" = backslash +:+ "u00e9" /\
  escape "Привет" =
    backslash +:+ "u041f" +:+ backslash +:+ "u0440" +:+ backslash +:+ "u0438"
    +:+ backslash +:+ "u0432" +:+ backslash +:+ "u0435" +:+ backslash +:+ "u0442" /\
  escape "€" = backslash +:+ "u20ac" /\
  escape "日本" = backslash +:+ "u65e5" +:+ backslash +:+ "u672c" /\
  escape "😀" = backslash +:+ "ud83d" +:+ backslash +:+ "ude00" /\
  escape ("a" +:+ nl +:+ "b") = "a" +:+ backslash +:+ "nb".
Proof. repeat split. Qed.
